(** * Electric-vehicle dashboard: the store, the filter model and the four KPI queries

    A shallow embedding of [src/database.py] (class [DuckDBManager]) and
    [src/filters.py] (class [FilterManager]).

    How the program is modelled.
    - The table [vehicle_data] is a list of rows; a row is the list of its
      22 column values in the order of the [CREATE TABLE] statement.
    - What [pd.read_csv] hands to [load_csv] is a frame: its header and its
      rows of cells; a cell is missing ([NaN]), a text or a number.
    - [INSERT INTO vehicle_data SELECT * FROM temp_df] matches the columns of
      the frame with those of the table by position and casts every cell to
      the type of the column it lands in; the statement is atomic.
    - Numbers are exact rationals: the binary rounding of float64 is not
      modelled, decimal rounding ([round(2)], casts to DECIMAL) is.
    - A query is the SQL text that [query_with_filters] builds, run by a
      reader of exactly the statements of that shape. *)

From Stdlib Require Import List String Ascii Bool Arith ZArith QArith Qabs Qround Lia Lqa.
From Stdlib Require Import Permutation Sorted.
Import ListNotations.

Open Scope string_scope.
Open Scope list_scope.

Infix "+++" := String.append (right associativity, at level 60).

(** ** Outcomes *)

(** The exceptions the program can meet. *)
Inductive exn : Type :=
| KeyError          (* pandas: a column named in [subset] is not in the frame *)
| BinderError       (* DuckDB: the column counts of an INSERT differ *)
| ConversionError.  (* DuckDB: a value does not fit the type of its column *)

(** [Ok a]: the call returns [a].  [Raise e]: it raises [e].  [Beyond]: the
    SQL text is not a statement of the shape this development reads, so no
    behaviour is asserted for it. *)
Inductive result (A : Type) : Type :=
| Ok (a : A)
| Raise (e : exn)
| Beyond.

Arguments Ok {A} a.
Arguments Raise {A} e.
Arguments Beyond {A}.

Definition bind {A B : Type} (m : result A) (k : A -> result B) : result B :=
  match m with
  | Ok a => k a
  | Raise e => Raise e
  | Beyond => Beyond
  end.

Notation "x <- m ;; k" := (bind m (fun x => k))
  (at level 61, m at next level, right associativity).

Definition obind {A B : Type} (m : option A) (k : A -> option B) : option B :=
  match m with
  | Some a => k a
  | None => None
  end.

Notation "x <-? m ;; k" := (obind m (fun x => k))
  (at level 61, m at next level, right associativity).

(** ** Small list utilities *)

(** Keeps the defined images, in order. *)
Fixpoint omap {A B : Type} (f : A -> option B) (l : list A) : list B :=
  match l with
  | [] => []
  | x :: l' =>
      match f x with
      | Some y => y :: omap f l'
      | None => omap f l'
      end
  end.

(** Runs [f] on every element; the first failure is the outcome. *)
Fixpoint mapM {A B : Type} (f : A -> result B) (l : list A) : result (list B) :=
  match l with
  | [] => Ok []
  | x :: l' => y <- f x ;; ys <- mapM f l' ;; Ok (y :: ys)
  end.

Definition is_nil {A : Type} (l : list A) : bool :=
  match l with
  | [] => true
  | _ :: _ => false
  end.

Definition is_some {A : Type} (o : option A) : bool :=
  match o with
  | Some _ => true
  | None => false
  end.

(** Insertion sort for a boolean order; stable. *)
Fixpoint insert_sorted {A : Type} (leb : A -> A -> bool) (x : A) (l : list A) : list A :=
  match l with
  | [] => [x]
  | y :: l' => if leb x y then x :: l else y :: insert_sorted leb x l'
  end.

Fixpoint isort {A : Type} (leb : A -> A -> bool) (l : list A) : list A :=
  match l with
  | [] => []
  | x :: l' => insert_sorted leb x (isort leb l')
  end.

(** ** The schema of [vehicle_data] ([_create_schema]) *)

Inductive sqltype : Type :=
| VARCHAR
| INTEGER
| DECIMAL (width scale : nat).

Definition schema : list (string * sqltype) :=
  [ ("brand", VARCHAR);
    ("model", VARCHAR);
    ("top_speed_kmh", DECIMAL 6 2);
    ("battery_capacity_kWh", DECIMAL 6 2);
    ("battery_type", VARCHAR);
    ("number_of_cells", INTEGER);
    ("torque_nm", DECIMAL 8 2);
    ("efficiency_wh_per_km", DECIMAL 6 2);
    ("range_km", DECIMAL 8 2);
    ("acceleration_0_100_s", DECIMAL 5 2);
    ("fast_charging_power_kw_dc", DECIMAL 6 2);
    ("fast_charge_port", VARCHAR);
    ("towing_capacity_kg", DECIMAL 8 2);
    ("cargo_volume_l", DECIMAL 8 2);
    ("seats", INTEGER);
    ("drivetrain", VARCHAR);
    ("segment", VARCHAR);
    ("length_mm", DECIMAL 8 2);
    ("width_mm", DECIMAL 8 2);
    ("height_mm", DECIMAL 8 2);
    ("car_body_type", VARCHAR);
    ("source_url", VARCHAR) ].

Definition schema_columns : list string := map fst schema.

(** A stored value.  [DDec u s] is the decimal [u / 10^s]. *)
Inductive datum : Type :=
| DNull
| DText (s : string)
| DInt (n : Z)
| DDec (unscaled : Z) (scale : nat).

Definition row : Type := list datum.
Definition table : Type := list row.

(** Position of a name in a header. *)
Fixpoint index_of (name : string) (cols : list string) : option nat :=
  match cols with
  | [] => None
  | c :: cols' =>
      if String.eqb c name then Some 0%nat
      else option_map S (index_of name cols')
  end.

(** The value a stored row has in the column [name] of the table. *)
Definition field (name : string) (r : row) : datum :=
  match index_of name schema_columns with
  | Some i => nth i r DNull
  | None => DNull
  end.

(** What [.df()] shows of a stored value: a text column holds a string or
    nothing, a numeric column a float or NaN. *)
Definition text_of (d : datum) : option string :=
  match d with
  | DText s => Some s
  | _ => None
  end.

Definition float_of (d : datum) : option Q :=
  match d with
  | DInt n => Some (inject_Z n)
  | DDec u s => Some (inject_Z u / inject_Z (10 ^ Z.of_nat s))%Q
  | _ => None
  end.


(** ** Frames *)

Record frame (A : Type) : Type := mkFrame {
  columns : list string;
  rows : list A
}.

Arguments mkFrame {A} columns rows.
Arguments columns {A} f.
Arguments rows {A} f.

(** A cell of the frame read from the CSV file. *)
Inductive cell : Type :=
| NaN
| Str (s : string)
| Num (x : Q).

Definition DataFrame : Type := frame (list cell).

Definition isna (c : cell) : bool :=
  match c with
  | NaN => true
  | _ => false
  end.

(** The cell of a row under the column [name] of the header [cols]. *)
Definition cell_at (cols : list string) (name : string) (r : list cell) : cell :=
  match index_of name cols with
  | Some i => nth i r NaN
  | None => NaN
  end.

(** [r] with [g c x] in place of every cell [x] under a header [c]. *)
Fixpoint zip_cells (g : string -> cell -> cell) (cols : list string) (r : list cell)
  : list cell :=
  match cols, r with
  | c :: cols', x :: r' => g c x :: zip_cells g cols' r'
  | _, _ => r
  end.

(** The value a stored row has in the column [name] of a table whose
    columns are [cols]. *)
Definition field_in (cols : list string) (name : string) (r : row) : datum :=
  match index_of name cols with
  | Some i => nth i r DNull
  | None => DNull
  end.

(** ** Decimal rounding *)

(** Nearest integer, ties to the even one ([numpy.rint], [nearbyint]). *)
Definition rint (x : Q) : Z :=
  let f := Qfloor x in
  match Qcompare (x - inject_Z f) (1 # 2) with
  | Lt => f
  | Gt => (f + 1)%Z
  | Eq => if Z.even f then f else (f + 1)%Z
  end.

(** Nearest integer, ties away from zero (C's [round]). *)
Definition round_away (x : Q) : Z :=
  if Qle_bool 0 x then Qfloor (x + (1 # 2)) else (- Qfloor (- x + (1 # 2)))%Z.

(** [Series.round(2)]. *)
Definition round2 (x : Q) : Q := (inject_Z (rint (x * 100)) / 100)%Q.

(** ** Loading a CSV file ([load_csv]) *)

Section Store.

(** What the two libraries do with a single text or number is taken as
    given: the development holds for every such reader and printer. *)

(** pandas: the number [pd.to_numeric] reads in a string, if any. *)
Variable to_numeric_scalar : string -> option Q.
(** DuckDB: the number a cast from VARCHAR to a numeric type reads. *)
Variable number_of_varchar : string -> option Q.
(** DuckDB: the text a cast from a number to VARCHAR writes. *)
Variable varchar_of_number : Q -> string.

Definition numeric_columns : list string :=
  [ "top_speed_kmh"; "battery_capacity_kWh"; "number_of_cells";
    "torque_nm"; "efficiency_wh_per_km"; "range_km";
    "acceleration_0_100_s"; "fast_charging_power_kw_dc";
    "towing_capacity_kg"; "cargo_volume_l"; "seats";
    "length_mm"; "width_mm"; "height_mm" ].

Definition required_columns : list string :=
  [ "brand"; "model"; "segment"; "car_body_type" ].

(** [pd.to_numeric(..., errors='coerce')] on one cell. *)
Definition to_numeric (c : cell) : cell :=
  match c with
  | Str s =>
      match to_numeric_scalar s with
      | Some x => Num x
      | None => NaN
      end
  | _ => c
  end.

(** [row] with [f] applied under every column of the header called [name]
    ([read_csv] makes the names of a header distinct). *)
Fixpoint map_column (name : string) (f : cell -> cell)
    (cols : list string) (r : list cell) : list cell :=
  match cols, r with
  | c :: cols', x :: r' =>
      (if String.eqb c name then f x else x) :: map_column name f cols' r'
  | _, _ => r
  end.

(** [df[col] = f(df[col])]. *)
Definition assign_column (name : string) (f : cell -> cell) (df : DataFrame) : DataFrame :=
  mkFrame (columns df) (map (map_column name f (columns df)) (rows df)).

(** The loop over [numeric_columns]. *)
Definition coerce_numeric (df : DataFrame) : DataFrame :=
  fold_left
    (fun d col =>
       if existsb (String.eqb col) (columns d)
       then assign_column col to_numeric d
       else d)
    numeric_columns df.

(** A row passes [dropna(subset, how='any')] when none of the cells under
    the columns of [subset] is missing. *)
Definition all_present (cols : list string) (subset : list string) (r : list cell) : bool :=
  forallb (fun name => negb (isna (cell_at cols name r))) subset.

Definition dropna (subset : list string) (df : DataFrame) : result DataFrame :=
  if forallb (fun name => existsb (String.eqb name) (columns df)) subset
  then Ok (mkFrame (columns df) (filter (all_present (columns df) subset) (rows df)))
  else Raise KeyError.

(** Casting a number to a numeric column type: rounded to the scale, and
    refused when it does not fit the width. *)
Definition cast_number (ty : sqltype) (x : Q) : result datum :=
  match ty with
  | VARCHAR => Ok (DText (varchar_of_number x))
  | INTEGER =>
      let n := rint x in
      if ((- 2 ^ 31 <=? n) && (n <? 2 ^ 31))%Z then Ok (DInt n)
      else Raise ConversionError
  | DECIMAL w s =>
      let u := round_away (x * inject_Z (10 ^ Z.of_nat s)) in
      if (Z.abs u <? 10 ^ Z.of_nat w)%Z then Ok (DDec u s)
      else Raise ConversionError
  end.

(** Casting a cell to the type of the column it is inserted in; a missing
    cell is NULL. *)
Definition cast (ty : sqltype) (c : cell) : result datum :=
  match c with
  | NaN => Ok DNull
  | Num x => cast_number ty x
  | Str s =>
      match ty with
      | VARCHAR => Ok (DText s)
      | _ =>
          match number_of_varchar s with
          | Some x => cast_number ty x
          | None => Raise ConversionError
          end
      end
  end.

(** One row of [SELECT * FROM temp_df] as a row of the table: the i-th cell
    goes to the i-th column. *)
Fixpoint cast_row (tys : list sqltype) (r : list cell) : result row :=
  match tys, r with
  | [], [] => Ok []
  | ty :: tys', c :: r' => d <- cast ty c ;; ds <- cast_row tys' r' ;; Ok (d :: ds)
  | _, _ => Raise BinderError
  end.

(** [INSERT INTO vehicle_data SELECT * FROM temp_df]: all rows or none. *)
Definition insert_select (df : DataFrame) (t : table) : result table :=
  if Nat.eqb (List.length (columns df)) (List.length schema)
  then new <- mapM (cast_row (map snd schema)) (rows df) ;; Ok (t ++ new)
  else Raise BinderError.

(** [load_csv], from the frame that [pd.read_csv] returns: the number of
    rows inserted and the table afterwards.  (A file that [read_csv] cannot
    read raises before any of this.) *)
Definition load_csv (df : DataFrame) (t : table) : result (nat * table) :=
  let df := coerce_numeric df in
  df <- dropna required_columns df ;;
  if (0 <? List.length (rows df))%nat
  then t' <- insert_select df t ;; Ok (List.length (rows df), t')
  else Ok (List.length (rows df), t).

(** [clear_all_data]: [DELETE FROM vehicle_data]. *)
Definition clear_all_data (t : table) : table := [].

(** [get_record_count]: [SELECT COUNT( * ) FROM vehicle_data]. *)
Definition get_record_count (t : table) : nat := List.length t.

(** *** Vocabulary for the statements about the store *)

(** The cell under the column [name] as the insert sees it: read as a
    number when the column is one of [numeric_columns]. *)
Definition prepared (name : string) (c : cell) : cell :=
  if existsb (String.eqb name) numeric_columns then to_numeric c else c.

(** The cell can be cast to the type. *)
Definition fits (ty : sqltype) (c : cell) : bool :=
  match cast ty c with
  | Ok _ => true
  | _ => false
  end.

(** A row of the frame as the insert sees it, after the loop over
    [numeric_columns]. *)
Definition prepared_row (cols : list string) (r : list cell) : list cell :=
  zip_cells prepared cols r.

(** The row has a cell for every column of the table, and every cell fits
    the type of the column at its position. *)
Definition row_fits (cols : list string) (r : list cell) : Prop :=
  Forall2 (fun ty c => fits ty c = true) (map snd schema) (prepared_row cols r).

(** The rows of a frame in which brand, model, segment and car_body_type
    are all present. *)
Definition complete_rows (df : DataFrame) : list (list cell) :=
  filter (all_present (columns df) required_columns) (rows df).

(** The stored row holds, in every column of the table, the cast of the
    cell that the frame has under the header of that name. *)
Definition stored_by_name (cols : list string) (r : list cell) (stored : row) : Prop :=
  forall name ty, In (name, ty) schema ->
    cast ty (prepared name (cell_at cols name r)) = Ok (field name stored).

(** The states of the table: empty at start, then changed by loads of
    frames that satisfy [accepted] and by clears. *)
Inductive reachable_by (accepted : DataFrame -> Prop) : table -> Prop :=
| reach_start : reachable_by accepted []
| reach_load df t n t' :
    reachable_by accepted t -> accepted df -> load_csv df t = Ok (n, t') ->
    reachable_by accepted t'
| reach_clear t :
    reachable_by accepted t -> reachable_by accepted (clear_all_data t).

(** *** Sequences of loads and clears *)

Inductive command : Type :=
| Load (df : DataFrame)
| Clear.

(** One command on the table; beside the table, the sum of the numbers
    that the loads have returned since the last clear.  A load that raises
    leaves the table as it was. *)
Definition run_command (st : table * nat) (c : command) : table * nat :=
  match c with
  | Load df =>
      match load_csv df (fst st) with
      | Ok (n, t') => (t', (snd st + n)%nat)
      | _ => st
      end
  | Clear => (clear_all_data (fst st), 0%nat)
  end.

(** The commands in turn, from the empty table. *)
Definition run (commands : list command) : table * nat :=
  fold_left run_command commands ([], 0%nat).

End Store.

(** The header lists the columns of the table, in the order of the table. *)
Definition in_table_order (df : DataFrame) : Prop := columns df = schema_columns.

(** The header consists of the names of the columns of the table, in any
    order. *)
Definition has_table_columns (df : DataFrame) : bool :=
  Nat.eqb (List.length (columns df)) (List.length schema_columns)
  && forallb (fun name => existsb (String.eqb name) (columns df)) schema_columns.

(** A stored row has brand, model, segment and car_body_type. *)
Definition required_stored (r : row) : bool :=
  forallb (fun name => is_some (text_of (field name r)))
          ["brand"; "model"; "segment"; "car_body_type"].

(** ** The filter model ([FilterManager]) *)

(** A Python [Dict[str, List[str]]]: the entries in insertion order, every
    key once. *)
Definition dict : Type := list (string * list string).

Definition keys (d : dict) : list string := map fst d.

Fixpoint dict_get (k : string) (d : dict) : option (list string) :=
  match d with
  | [] => None
  | (k', v) :: d' => if String.eqb k' k then Some v else dict_get k d'
  end.

(** [d[k] = v]: a key already there keeps its place, a new one goes last. *)
Fixpoint dict_set (k : string) (v : list string) (d : dict) : dict :=
  match d with
  | [] => [(k, v)]
  | (k', v') :: d' =>
      if String.eqb k' k then (k, v) :: d' else (k', v') :: dict_set k v d'
  end.

(** [apply_filters]: a fresh dict that receives the entries of the
    selection whose list is not empty. *)
Definition apply_filters (selected_filters : dict) : dict :=
  fold_left
    (fun validated_filters kv =>
       if is_nil (snd kv) then validated_filters
       else dict_set (fst kv) (snd kv) validated_filters)
    selected_filters [].

(** ** The query text ([query_with_filters]) *)

Definition quote_value (v : string) : string := "'" +++ v +++ "'".

Definition placeholders (values : list string) : string :=
  String.concat "," (map quote_value values).

Definition select_all : string := "SELECT * FROM vehicle_data WHERE 1=1".

Definition in_clause (column : string) (values : list string) : string :=
  " AND " +++ column +++ " IN (" +++ placeholders values +++ ")".

Definition query_text (filters : dict) : string :=
  fold_left
    (fun query kv =>
       if is_nil (snd kv) then query
       else query +++ in_clause (fst kv) (snd kv))
    filters select_all.

(** ** Reading the query text

    The engine side, for the statements [select_all] followed by clauses
    [ AND column IN ('v1','v2',...)] over the text columns of the table.
    Inside a string literal a quote ends the literal unless it is doubled,
    and a doubled quote stands for one quote. *)

Fixpoint strip_prefix (p s : string) : option string :=
  match p with
  | EmptyString => Some s
  | String a p' =>
      match s with
      | String b s' => if Ascii.eqb a b then strip_prefix p' s' else None
      | EmptyString => None
      end
  end.

Definition quote_char : ascii := "'"%char.

Definition is_ident_char (c : ascii) : bool :=
  let n := nat_of_ascii c in
  ((97 <=? n) && (n <=? 122) || (65 <=? n) && (n <=? 90)
   || (48 <=? n) && (n <=? 57) || (n =? 95))%nat.

(** The longest run of identifier characters at the head of [s], and what
    follows it. *)
Fixpoint lex_ident (s : string) : string * string :=
  match s with
  | EmptyString => (EmptyString, EmptyString)
  | String c s' =>
      if is_ident_char c
      then let (i, rest) := lex_ident s' in (String c i, rest)
      else (EmptyString, s)
  end.

(** The body of a string literal whose opening quote has been read: the
    string it denotes and what follows its closing quote. *)
Fixpoint lex_literal (s : string) : option (string * string) :=
  match s with
  | EmptyString => None
  | String c s' =>
      if Ascii.eqb c quote_char
      then
        match s' with
        | String c' s'' =>
            if Ascii.eqb c' quote_char
            then option_map (fun p => (String quote_char (fst p), snd p)) (lex_literal s'')
            else Some (EmptyString, s')
        | EmptyString => Some (EmptyString, s')
        end
      else option_map (fun p => (String c (fst p), snd p)) (lex_literal s')
  end.

(** ['v1','v2',...)] : the literals and what follows the parenthesis. *)
Fixpoint parse_literals (fuel : nat) (s : string) : option (list string * string) :=
  match fuel with
  | O => None
  | S fuel' =>
      s1 <-? strip_prefix "'" s ;;
      p <-? lex_literal s1 ;;
      match snd p with
      | String c s2 =>
          if Ascii.eqb c ","%char
          then q <-? parse_literals fuel' s2 ;; Some (fst p :: fst q, snd q)
          else if Ascii.eqb c ")"%char then Some ([fst p], s2)
          else None
      | EmptyString => None
      end
  end.

(** The clauses up to the end of the text. *)
Fixpoint parse_clauses (fuel : nat) (s : string) : option (list (string * list string)) :=
  match fuel with
  | O => None
  | S fuel' =>
      match s with
      | EmptyString => Some []
      | _ =>
          s1 <-? strip_prefix " AND " s ;;
          let (column, s2) := lex_ident s1 in
          s3 <-? strip_prefix " IN (" s2 ;;
          p <-? parse_literals (String.length s3) s3 ;;
          cs <-? parse_clauses fuel' (snd p) ;;
          Some ((column, fst p) :: cs)
      end
  end.

Definition read_select (sql : string) : option (list (string * list string)) :=
  rest <-? strip_prefix select_all sql ;;
  parse_clauses (S (String.length rest)) rest.

(** The VARCHAR columns of the table. *)
Definition text_columns : list string :=
  map fst (filter (fun c => match snd c with VARCHAR => true | _ => false end) schema).

(** [column IN (values)] on a row: true when the value is one of the list;
    a NULL is in no list. *)
Definition in_list (r : row) (clause : string * list string) : bool :=
  match text_of (field (fst clause) r) with
  | Some s => existsb (String.eqb s) (snd clause)
  | None => false
  end.

(** [conn.execute(query).df()]. *)
Definition execute (sql : string) (t : table) : result (list row) :=
  match read_select sql with
  | Some clauses =>
      if forallb (fun c => existsb (String.eqb (fst c)) text_columns) clauses
      then Ok (filter (fun r => forallb (in_list r) clauses) t)
      else Beyond
  | None => Beyond
  end.

Definition query_with_filters (filters : dict) (t : table) : result (list row) :=
  execute (query_text filters) t.

(** ** The four KPI queries *)

(** The values of a text column of the frame, missing ones left out. *)
Definition text_values (col : string) (df : list row) : list string :=
  omap (fun r => text_of (field col r)) df.

(** The values of a numeric column of the frame, missing ones left out. *)
Definition float_values (col : string) (df : list row) : list Q :=
  omap (fun r => float_of (field col r)) df.

(** The distinct elements, in the order of their first occurrence. *)
Fixpoint distinct (l : list string) : list string :=
  match l with
  | [] => []
  | x :: l' => x :: filter (fun y => negb (String.eqb x y)) (distinct l')
  end.

(** The rows of the group [k] of [groupby(key)]. *)
Definition group (key k : string) (df : list row) : list row :=
  filter
    (fun r =>
       match text_of (field key r) with
       | Some s => String.eqb s k
       | None => false
       end)
    df.

(** [Series.mean()]: missing values are skipped; no value, no mean. *)
Definition mean (l : list Q) : option Q :=
  match l with
  | [] => None
  | _ => Some (fold_left Qplus l 0 / inject_Z (Z.of_nat (List.length l)))%Q
  end.

(** [df.groupby(key)[val].mean().reset_index()]: one row per key, keys in
    increasing order; rows without a key belong to no group. *)
Definition groupby_mean (key val : string) (df : list row) : list (string * option Q) :=
  map
    (fun k => (k, mean (float_values val (group key k df))))
    (isort String.leb (distinct (text_values key df))).

(** The order of two sort keys; a missing key counts as the largest (the
    sort only compares keys that are present). *)
Definition key_leb {A : Type} (by_ : A -> option Q) (a b : A) : bool :=
  match by_ a, by_ b with
  | Some x, Some y => Qle_bool x y
  | _, None => true
  | None, Some _ => false
  end.

(** [sort_values(by, ascending)]: rows with a missing key go last; a
    descending sort is the ascending sort of the reversed rows, reversed. *)
Definition sort_values {A : Type} (by_ : A -> option Q) (ascending : bool) (l : list A) : list A :=
  let present := filter (fun a => is_some (by_ a)) l in
  let missing := filter (fun a => negb (is_some (by_ a))) l in
  (if ascending then isort (key_leb by_) present
   else rev (isort (key_leb by_) (rev present)))
  ++ missing.


Definition calculate_kpi_1_range_by_segment (filters : dict) (t : table)
  : result (frame (string * option Q)) :=
  df <- query_with_filters filters t ;;
  if is_nil df then Ok (mkFrame ["segment"; "average_range_km"] [])
  else
    let result := groupby_mean "segment" "range_km" df in
    Ok (mkFrame ["segment"; "average_range_km"] (sort_values snd false result)).

Definition calculate_kpi_2_acceleration_by_brand (filters : dict) (t : table)
  : result (frame (string * option Q)) :=
  df <- query_with_filters filters t ;;
  if is_nil df then Ok (mkFrame ["brand"; "average_acceleration_s"] [])
  else
    let result := groupby_mean "brand" "acceleration_0_100_s" df in
    Ok (mkFrame ["brand"; "average_acceleration_s"] (sort_values snd true result)).





Definition count_of (r : string * Z) : option Q := Some (inject_Z (snd r)).

(** [Series.value_counts().reset_index()]: every distinct value with the
    number of its rows, the larger counts first; missing values left out. *)
Definition value_counts (col : string) (df : list row) : list (string * Z) :=
  let values := text_values col df in
  sort_values count_of false
    (map (fun k => (k, Z.of_nat (count_occ string_dec values k))) (distinct values)).

Definition sum_Z (l : list Z) : Z := fold_right Z.add 0%Z l.

(** A row of the body-type distribution. *)
Record share : Type := mkShare {
  car_body_type : string;
  count : Z;
  percentage : Q
}.

Definition calculate_kpi_4_distribution_by_body_type (filters : dict) (t : table)
  : result (frame share) :=
  df <- query_with_filters filters t ;;
  if is_nil df then Ok (mkFrame ["car_body_type"; "count"; "percentage"] [])
  else
    let result := value_counts "car_body_type" df in
    let total := sum_Z (map snd result) in
    let result :=
      map (fun kc =>
             mkShare (fst kc) (snd kc)
                     (round2 (inject_Z (snd kc) / inject_Z total * 100)))
          result in
    Ok (mkFrame ["car_body_type"; "count"; "percentage"]
          (sort_values (fun s => Some (inject_Z (count s))) false result)).

(** *** Vocabulary for the statements about the query text *)

(** No quote in the string. *)
Fixpoint quote_free (s : string) : bool :=
  match s with
  | EmptyString => true
  | String c s' => negb (Ascii.eqb c quote_char) && quote_free s'
  end.

(** Only identifier characters in the string. *)
Fixpoint ident_like (s : string) : bool :=
  match s with
  | EmptyString => true
  | String c s' => is_ident_char c && ident_like s'
  end.

(** The entries of a filter set that the query text mentions. *)
Definition retained (filters : dict) : dict :=
  filter (fun kv => negb (is_nil (snd kv))) filters.

(** The clauses of the query text, one after the other. *)
Definition clauses_text (clauses : dict) : string :=
  fold_right (fun kv rest => in_clause (fst kv) (snd kv) +++ rest) EmptyString clauses.

(** The text does not begin with a quote. *)
Definition no_quote_ahead (s : string) : bool :=
  match s with
  | String c _ => negb (Ascii.eqb c quote_char)
  | EmptyString => true
  end.

(** A clause this development reads back: an identifier and a non-empty
    list of values without quotes. *)
Definition plain_clause (kv : string * list string) : Prop :=
  ident_like (fst kv) = true
  /\ snd kv <> []
  /\ Forall (fun v => quote_free v = true) (snd kv).


(** ** Example data *)

(** Readers and a printer for the examples, which never consult them:
    their numeric columns hold numbers and their text columns texts. *)
Definition no_number : string -> option Q := fun _ => None.
Definition number_text : Q -> string := fun _ => "#".

(** The four vehicles of [sample_csv] in [tests/test_database.py]. *)
Definition sample_frame : DataFrame :=
  mkFrame schema_columns
    [ [ Str "Tesla"; Str "Model 3"; Num 225; Num 75; Str "Lithium-ion";
        Num 4680; Num 450; Num 150; Num 500; Num (51 # 10); Num 170;
        Str "CCS"; Num 0; Num 425; Num 5; Str "RWD"; Str "C - Medium";
        Num 4694; Num 1849; Num 1443; Str "Sedan";
        Str "https://example.com/tesla-model-3" ];
      [ Str "Tesla"; Str "Model Y"; Num 225; Num 75; Str "Lithium-ion";
        Num 4680; Num 450; Num 160; Num 480; Num (58 # 10); Num 170;
        Str "CCS"; Num 1600; Num 425; Num 5; Str "RWD"; Str "JC - Medium";
        Num 4751; Num 1921; Num 1624; Str "SUV";
        Str "https://example.com/tesla-model-y" ];
      [ Str "BMW"; Str "i4"; Num 200; Num (815 # 10); Str "Lithium-ion";
        Num 4680; Num 400; Num 170; Num 450; Num (55 # 10); Num 200;
        Str "CCS"; Num 0; Num 495; Num 5; Str "RWD"; Str "C - Medium";
        Num 4783; Num 1852; Num 1454; Str "Sedan";
        Str "https://example.com/bmw-i4" ];
      [ Str "Audi"; Str "e-tron"; Num 200; Num 100; Str "Lithium-ion";
        Num 4680; Num 450; Num 180; Num 500; Num (52 # 10); Num 150;
        Str "CCS"; Num 1800; Num 660; Num 5; Str "AWD"; Str "JC - Medium";
        Num 4901; Num 1935; Num 1616; Str "SUV";
        Str "https://example.com/audi-etron" ] ].

(** A candidate row with the given cells, every other cell missing. *)
Definition candidate (brand model segment body speed range url : cell) : list cell :=
  [ brand; model; speed; NaN; NaN; NaN; NaN; NaN; range; NaN; NaN;
    NaN; NaN; NaN; NaN; NaN; segment; NaN; NaN; NaN; body; url ].

(** The table after loading a frame into the empty table. *)
Definition loaded (df : DataFrame) : table :=
  match load_csv no_number no_number number_text df [] with
  | Ok (_, t) => t
  | _ => []
  end.

Definition sample_table : table := Eval vm_compute in loaded sample_frame.



(** A segment whose only vehicle has no range. *)
Definition rangeless_frame : DataFrame :=
  mkFrame schema_columns
    [ candidate (Str "Kia") (Str "EV6") (Str "C - Medium") (Str "SUV")
                (Num 180) (Num 400) NaN;
      candidate (Str "Lucid") (Str "Air") (Str "F - Luxury") (Str "Sedan")
                (Num 250) NaN NaN ].

Definition rangeless_table : table := Eval vm_compute in loaded rangeless_frame.

(** One complete vehicle whose top speed does not fit DECIMAL(6,2). *)
Definition overflow_frame : DataFrame :=
  mkFrame schema_columns
    [ candidate (Str "Rimac") (Str "Nevera") (Str "S - Sport") (Str "Coupe")
                (Num 100000) (Num 490) NaN ].

(** The header of the table with two of its names exchanged. *)
Definition swap_names (a b : string) (cols : list string) : list string :=
  map (fun c => if String.eqb c a then b else if String.eqb c b then a else c) cols.

(** The sample vehicle with the columns model and brand exchanged in the
    file: the first cell is the model, the second the brand. *)
Definition model_first_frame : DataFrame :=
  mkFrame (swap_names "brand" "model" schema_columns)
    [ candidate (Str "Model 3") (Str "Tesla") (Str "C - Medium") (Str "Sedan")
                (Num 225) (Num 500) NaN ].

Definition model_first_table : table := Eval vm_compute in loaded model_first_frame.

(** A file whose first column is source_url and whose last is brand; the
    vehicle has a brand and no URL. *)
Definition url_first_frame : DataFrame :=
  mkFrame (swap_names "brand" "source_url" schema_columns)
    [ candidate NaN (Str "Model 3") (Str "C - Medium") (Str "Sedan")
                (Num 225) (Num 500) (Str "Tesla") ].

Definition url_first_table : table := Eval vm_compute in loaded url_first_frame.

(** Three vehicles; the brand of the third contains quotes and a comma. *)
Definition quoted_brand : string := "a','b".

Definition quoted_frame : DataFrame :=
  mkFrame schema_columns
    [ candidate (Str "a") (Str "m1") (Str "C - Medium") (Str "SUV")
                (Num 180) (Num 400) NaN;
      candidate (Str "b") (Str "m2") (Str "C - Medium") (Str "SUV")
                (Num 180) (Num 400) NaN;
      candidate (Str quoted_brand) (Str "m3") (Str "C - Medium") (Str "SUV")
                (Num 180) (Num 400) NaN ].

Definition quoted_table : table := Eval vm_compute in loaded quoted_frame.

(** A file without the column car_body_type. *)
Definition headless_frame : DataFrame :=
  mkFrame ["brand"; "model"; "segment"]
    [ [Str "Tesla"; Str "Model 3"; Str "C - Medium"] ].

(** A file with the four required columns only: one complete vehicle. *)
Definition short_frame : DataFrame :=
  mkFrame ["brand"; "model"; "segment"; "car_body_type"]
    [ [Str "Tesla"; Str "Model 3"; Str "C - Medium"; Str "Sedan"] ].

(** The same file, the brand of its vehicle missing. *)
Definition short_incomplete_frame : DataFrame :=
  mkFrame ["brand"; "model"; "segment"; "car_body_type"]
    [ [NaN; Str "Model 3"; Str "C - Medium"; Str "Sedan"] ].

(** A vehicle whose range is a text that is no number. *)
Definition unreadable_frame : DataFrame :=
  mkFrame schema_columns
    [ candidate (Str "Kia") (Str "EV6") (Str "C - Medium") (Str "SUV")
                (Num 180) (Str "unknown") NaN ].

(** ** The claims that the code does not meet, as they are stated *)



(** Every batch under the header of the table is loaded, and the number
    returned is the number of its complete rows. *)
Definition every_batch_is_counted : Prop :=
  forall to_numeric_scalar number_of_varchar varchar_of_number df t,
    in_table_order df ->
    Forall (fun r => List.length r = List.length schema) (rows df) ->
    exists t',
      load_csv to_numeric_scalar number_of_varchar varchar_of_number df t
      = Ok (List.length (complete_rows df), t')
      /\ get_record_count t'
         = (get_record_count t + List.length (complete_rows df))%nat.

(** Whatever the order of the columns in the header, a loaded value is
    stored under the field its header names. *)
Definition header_order_insignificant : Prop :=
  forall to_numeric_scalar number_of_varchar varchar_of_number df t n t',
    has_table_columns df = true ->
    load_csv to_numeric_scalar number_of_varchar varchar_of_number df t
    = Ok (n, t') ->
    exists new,
      t' = t ++ new
      /\ Forall2 (stored_by_name to_numeric_scalar number_of_varchar
                    varchar_of_number (columns df))
                 (complete_rows df) new.

(** The four required fields are present in every row of every table that
    loads and clears can produce. *)
Definition required_fields_always_stored : Prop :=
  forall to_numeric_scalar number_of_varchar varchar_of_number t,
    reachable_by to_numeric_scalar number_of_varchar varchar_of_number
      (fun df => has_table_columns df = true) t ->
    Forall (fun r => required_stored r = true) t.

(** The query returns the rows whose value, for every field of the filter
    set, is one of the values allowed for the field. *)
Definition allowed (filters : dict) (r : row) : bool :=
  forallb
    (fun kv =>
       match text_of (field (fst kv) r) with
       | Some s => existsb (String.eqb s) (snd kv)
       | None => false
       end)
    filters.

(** ** Filter options ([get_distinct_values], [get_available_filters]) *)

Definition newline : string := String (ascii_of_nat 10) EmptyString.

(** The text that [get_distinct_values] sends. *)
Definition distinct_text (column : string) : string :=
  newline +++ "            SELECT DISTINCT " +++ column +++ " FROM vehicle_data "
  +++ newline +++ "            WHERE " +++ column +++ " IS NOT NULL"
  +++ newline +++ "            ORDER BY " +++ column
  +++ newline +++ "        ".

Definition is_blank (c : ascii) : bool :=
  Ascii.eqb c " "%char || Ascii.eqb c (ascii_of_nat 10).

(** The words of a text, separated by spaces and line ends. *)
Fixpoint words (s : string) : list string :=
  match s with
  | EmptyString => []
  | String c s' =>
      if is_blank c then words s'
      else
        match s' with
        | EmptyString => [String c EmptyString]
        | String c' _ =>
            if is_blank c' then String c EmptyString :: words s'
            else
              match words s' with
              | w :: ws => String c w :: ws
              | [] => [String c EmptyString]
              end
        end
  end.

(** The engine side for the statements
    [SELECT DISTINCT c FROM vehicle_data WHERE c IS NOT NULL ORDER BY c]:
    the column [c], when the text is such a statement. *)
Definition read_distinct (sql : string) : option string :=
  match words sql with
  | [k1; k2; c1; k3; k4; k5; c2; k6; k7; k8; k9; k10; c3] =>
      if forallb (fun p => String.eqb (fst p) (snd p))
           (combine [k1; k2; k3; k4; k5; k6; k7; k8; k9; k10]
                    ["SELECT"; "DISTINCT"; "FROM"; "vehicle_data"; "WHERE";
                     "IS"; "NOT"; "NULL"; "ORDER"; "BY"])
         && String.eqb c1 c2 && String.eqb c2 c3
      then Some c1
      else None
  | _ => None
  end.

(** [get_distinct_values], for the text columns of the table: the values
    present, each once, in increasing order. *)
Definition get_distinct_values (column : string) (t : table) : result (list string) :=
  match read_distinct (distinct_text column) with
  | Some c =>
      if existsb (String.eqb c) text_columns
      then Ok (isort String.leb (distinct (text_values c t)))
      else Beyond
  | None => Beyond
  end.

(** [get_available_filters]. *)
Definition get_available_filters (t : table) : result dict :=
  brand <- get_distinct_values "brand" t ;;
  segment <- get_distinct_values "segment" t ;;
  car_body_type <- get_distinct_values "car_body_type" t ;;
  Ok [("brand", brand); ("segment", segment); ("car_body_type", car_body_type)].

(** ** The filter summary ([get_filter_summary]) *)

Definition no_filter_applied : string := "Aucun filtre appliqué".

Definition get_filter_summary (filters : dict) : string :=
  if is_nil filters then no_filter_applied
  else
    let summary_parts :=
      fold_left
        (fun summary_parts kv =>
           if is_nil (snd kv) then summary_parts
           else summary_parts ++ [fst kv +++ ": " +++ String.concat ", " (snd kv)])
        filters [] in
    if is_nil summary_parts then no_filter_applied
    else String.concat " | " summary_parts.

(** The part of the summary for one entry. *)
Definition summary_part (kv : string * list string) : string :=
  fst kv +++ ": " +++ String.concat ", " (snd kv).

(** ** The sidebar ([DashboardApp.render_filter_section]) *)

(** What the sidebar shows below the selectors. *)
Inductive notice : Type :=
| ShowInfo (text : string)
| ShowWarning (text : string).

(** [render_filter_section], from the load flag of the session and from
    what the three selectors return: the filter set and the notice. *)
Definition render_filter_section (data_loaded : bool) (t : table)
    (selected_brands selected_segments selected_body_types : list string)
  : result (dict * notice) :=
  let filters : dict := [] in
  if data_loaded then
    available_filters <- get_available_filters t ;;
    let filters :=
      if is_nil selected_brands then filters
      else dict_set "brand" selected_brands filters in
    let filters :=
      if is_nil selected_segments then filters
      else dict_set "segment" selected_segments filters in
    let filters :=
      if is_nil selected_body_types then filters
      else dict_set "car_body_type" selected_body_types filters in
    let filter_summary := get_filter_summary filters in
    Ok (filters, ShowInfo ("📌 " +++ filter_summary))
  else Ok (filters, ShowWarning "⚠️ Chargez d'abord les données").

(** ** The chart of the accelerations
    ([VisualizationEngine.render_kpi_2_acceleration_by_brand]) *)

(** [DataFrame.empty]: no row or no column. *)
Definition frame_empty {A : Type} (f : frame A) : bool :=
  is_nil (rows f) || is_nil (columns f).

(** A bar chart, as far as its data go: the frame it draws, one bar per
    row, and its title. *)
Record bar_chart (A : Type) : Type := mkBarChart {
  title : string;
  drawn : frame A
}.

Arguments mkBarChart {A} title drawn.
Arguments title {A} b.
Arguments drawn {A} b.

Definition render_kpi_2_acceleration_by_brand {A : Type} (data : frame A)
  : option (bar_chart A) :=
  if frame_empty data then None
  else
    let data := mkFrame (columns data) (firstn 15 (rows data)) in
    Some (mkBarChart "Accélération moyenne par marque (0-100 km/h)" data).

(** ** Vocabulary for the further statements *)

(** Increasing keys, the rows without a key last. *)
Definition ascending {A : Type} (by_ : A -> option Q) (a b : A) : Prop :=
  match by_ a, by_ b with
  | Some x, Some y => (x <= y)%Q
  | _, None => True
  | None, Some _ => False
  end.

(** The value is NULL or of the type of the column, within its bounds. *)
Definition well_typed (ty : sqltype) (d : datum) : bool :=
  match d, ty with
  | DNull, _ => true
  | DText _, VARCHAR => true
  | DInt n, INTEGER => ((- 2 ^ 31 <=? n) && (n <? 2 ^ 31))%Z
  | DDec u s, DECIMAL w s' => Nat.eqb s s' && (Z.abs u <? 10 ^ Z.of_nat w)%Z
  | _, _ => false
  end.

(** The row has a well-typed value for every column of the table. *)
Definition row_typed (r : row) : Prop :=
  Forall2 (fun ty d => well_typed ty d = true) (map snd schema) r.

(** The string holds the character. *)
Fixpoint has_char (c : ascii) (s : string) : bool :=
  match s with
  | EmptyString => false
  | String c' s' => Ascii.eqb c' c || has_char c s'
  end.

(** * Facts about the utilities *)

Section SortFacts.

Context {A : Type} (leb : A -> A -> bool).

Let below (a b : A) : Prop := leb a b = true.

Lemma insert_sorted_perm (x : A) (l : list A) :
  Permutation (insert_sorted leb x l) (x :: l).
Proof.
  induction l as [|y l IH]; simpl.
  - apply Permutation_refl.
  - destruct (leb x y).
    + apply Permutation_refl.
    + eapply Permutation_trans; [apply perm_skip, IH | apply perm_swap].
Qed.

Lemma isort_perm (l : list A) : Permutation (isort leb l) l.
Proof.
  induction l as [|x l IH]; simpl.
  - apply perm_nil.
  - eapply Permutation_trans; [apply insert_sorted_perm | apply perm_skip, IH].
Qed.

Hypothesis leb_total : forall a b, leb a b = false -> leb b a = true.
Hypothesis leb_trans : forall a b c, leb a b = true -> leb b c = true -> leb a c = true.

Lemma insert_sorted_ordered (x : A) (l : list A) :
  StronglySorted below l -> StronglySorted below (insert_sorted leb x l).
Proof.
  induction 1 as [|y l Hl IH Hy]; simpl.
  - repeat constructor.
  - destruct (leb x y) eqn:Hxy.
    + constructor; [constructor; assumption|].
      constructor; [exact Hxy|].
      eapply Forall_impl; [|exact Hy].
      intros z Hz. exact (leb_trans _ _ _ Hxy Hz).
    + constructor; [exact IH|].
      eapply Permutation_Forall.
      * apply Permutation_sym, insert_sorted_perm.
      * constructor; [exact (leb_total _ _ Hxy) | exact Hy].
Qed.

Lemma isort_ordered (l : list A) : StronglySorted below (isort leb l).
Proof.
  induction l as [|x l IH]; simpl.
  - constructor.
  - apply insert_sorted_ordered, IH.
Qed.

End SortFacts.

Lemma StronglySorted_app {A : Type} (R : A -> A -> Prop) (l1 l2 : list A) :
  StronglySorted R l1 -> StronglySorted R l2 ->
  (forall a b, In a l1 -> In b l2 -> R a b) ->
  StronglySorted R (l1 ++ l2).
Proof.
  induction 1 as [|x l1 H1 IH Hx]; intros H2 Hcross; simpl.
  - exact H2.
  - constructor.
    + apply IH; [exact H2|]. intros a b Ha Hb. apply Hcross; [right|]; assumption.
    + apply Forall_app. split; [exact Hx|].
      apply Forall_forall. intros b Hb. apply Hcross; [left; reflexivity | exact Hb].
Qed.


Lemma StronglySorted_weaken {A : Type} (R R' : A -> A -> Prop) (l : list A) :
  (forall a b, In a l -> In b l -> R a b -> R' a b) ->
  StronglySorted R l -> StronglySorted R' l.
Proof.
  intros Himp H. induction H as [|x l Hl IH Hx].
  - constructor.
  - constructor.
    + apply IH. intros a b Ha Hb. apply Himp; right; assumption.
    + rewrite Forall_forall in *. intros b Hb.
      apply Himp; [left; reflexivity | right; exact Hb | apply Hx, Hb].
Qed.

Lemma filter_split_perm {A : Type} (p : A -> bool) (l : list A) :
  Permutation (filter p l ++ filter (fun a => negb (p a)) l) l.
Proof.
  induction l as [|x l IH]; simpl.
  - apply perm_nil.
  - destruct (p x); simpl.
    + apply perm_skip, IH.
    + apply Permutation_sym, Permutation_cons_app, Permutation_sym, IH.
Qed.

(** *** [sort_values] *)

Lemma key_leb_total {A : Type} (by_ : A -> option Q) (a b : A) :
  key_leb by_ a b = false -> key_leb by_ b a = true.
Proof.
  unfold key_leb. destruct (by_ a) as [x|], (by_ b) as [y|]; try easy.
  intros H. apply Qle_bool_iff. apply Qlt_le_weak, Qnot_le_lt.
  intros Hle. apply Qle_bool_iff in Hle. congruence.
Qed.

Lemma key_leb_trans {A : Type} (by_ : A -> option Q) (a b c : A) :
  key_leb by_ a b = true -> key_leb by_ b c = true -> key_leb by_ a c = true.
Proof.
  unfold key_leb.
  destruct (by_ a) as [x|], (by_ b) as [y|], (by_ c) as [z|]; try easy.
  rewrite !Qle_bool_iff. apply Qle_trans.
Qed.

Lemma sort_values_perm {A : Type} (by_ : A -> option Q) (asc : bool) (l : list A) :
  Permutation (sort_values by_ asc l) l.
Proof.
  unfold sort_values.
  eapply Permutation_trans; [|apply (filter_split_perm (fun a => is_some (by_ a)))].
  apply Permutation_app_tail.
  destruct asc.
  - apply isort_perm.
  - eapply Permutation_trans; [apply Permutation_sym, Permutation_rev|].
    eapply Permutation_trans; [apply isort_perm|].
    apply Permutation_sym, Permutation_rev.
Qed.


(** *** Distinct values and groups *)

Lemma omap_In {A B : Type} (f : A -> option B) (l : list A) (y : B) :
  In y (omap f l) <-> exists x, In x l /\ f x = Some y.
Proof.
  induction l as [|a l IH]; simpl.
  - split; [intros [] | intros [x [[] _]]].
  - destruct (f a) as [b|] eqn:Hfa; simpl; rewrite IH; split.
    + intros [<-|[x [Hx Hy]]]; [exists a | exists x]; auto.
    + intros [x [[<-|Hx] Hy]]; [left; congruence | right; exists x; auto].
    + intros [x [Hx Hy]]. exists x; auto.
    + intros [x [[<-|Hx] Hy]]; [congruence | exists x; auto].
Qed.

Lemma distinct_In (l : list string) (x : string) : In x (distinct l) <-> In x l.
Proof.
  induction l as [|y l IH]; simpl; [tauto|].
  rewrite filter_In, IH.
  destruct (String.eqb_spec y x) as [->|Hne]; simpl.
  - split; [intros _; left; reflexivity | intros _; left; reflexivity].
  - split; [intros [H|[H _]]; tauto | intros [H|H]; tauto].
Qed.

Lemma NoDup_filter {A : Type} (p : A -> bool) (l : list A) :
  NoDup l -> NoDup (filter p l).
Proof.
  induction 1 as [|x l Hx Hl IH]; simpl; [constructor|].
  destruct (p x); [constructor|]; auto.
  rewrite filter_In. tauto.
Qed.

Lemma distinct_NoDup (l : list string) : NoDup (distinct l).
Proof.
  induction l as [|y l IH]; simpl; constructor.
  - rewrite filter_In, String.eqb_refl. simpl. intros [_ H]. discriminate.
  - apply NoDup_filter, IH.
Qed.

Lemma text_values_In (col : string) (df : list row) (s : string) :
  In s (text_values col df) <-> exists r, In r df /\ text_of (field col r) = Some s.
Proof. apply omap_In. Qed.


Lemma groupby_mean_In (key val : string) (df : list row) (k : string) (a : option Q) :
  In (k, a) (groupby_mean key val df) <->
  (exists r, In r df /\ text_of (field key r) = Some k)
  /\ a = mean (float_values val (group key k df)).
Proof.
  unfold groupby_mean. rewrite in_map_iff. split.
  - intros [k' [Heq Hin]]. injection Heq as <- <-.
    apply (Permutation_in _ (isort_perm _ _)) in Hin.
    apply distinct_In, text_values_In in Hin. auto.
  - intros [Hin ->]. exists k. split; [reflexivity|].
    apply (Permutation_in _ (Permutation_sym (isort_perm _ _))).
    apply distinct_In, text_values_In, Hin.
Qed.


(** *** The KPI queries on the queried rows *)

Lemma kpi_1_on (filters : dict) (t : table) (df : list row) :
  query_with_filters filters t = Ok df ->
  calculate_kpi_1_range_by_segment filters t
  = Ok (mkFrame ["segment"; "average_range_km"]
          (sort_values snd false (groupby_mean "segment" "range_km" df))).
Proof.
  intros Hq. unfold calculate_kpi_1_range_by_segment. rewrite Hq. simpl.
  destruct df; reflexivity.
Qed.

Lemma kpi_2_on (filters : dict) (t : table) (df : list row) :
  query_with_filters filters t = Ok df ->
  calculate_kpi_2_acceleration_by_brand filters t
  = Ok (mkFrame ["brand"; "average_acceleration_s"]
          (sort_values snd true (groupby_mean "brand" "acceleration_0_100_s" df))).
Proof.
  intros Hq. unfold calculate_kpi_2_acceleration_by_brand. rewrite Hq. simpl.
  destruct df; reflexivity.
Qed.


(** *** Rounding and sums *)

Lemma rint_close (x : Q) :
  (- (1 # 2) <= inject_Z (rint x) - x <= 1 # 2)%Q.
Proof.
  unfold rint.
  pose proof (Qfloor_le x) as Hlo.
  pose proof (Qlt_floor x) as Hhi.
  rewrite inject_Z_plus in Hhi. change (inject_Z 1) with 1%Q in Hhi.
  destruct (Qcompare (x - inject_Z (Qfloor x)) (1 # 2)) eqn:Hc.
  - apply Qeq_alt in Hc.
    destruct (Z.even (Qfloor x));
      [|rewrite inject_Z_plus; change (inject_Z 1) with 1%Q]; lra.
  - apply Qlt_alt in Hc. lra.
  - apply Qgt_alt in Hc. rewrite inject_Z_plus. change (inject_Z 1) with 1%Q. lra.
Qed.





(** *** Counting the values of a column *)

Lemma sum_Z_perm (l l' : list Z) : Permutation l l' -> sum_Z l = sum_Z l'.
Proof. induction 1; simpl; lia. Qed.

Lemma sum_Z_zero {A : Type} (f : A -> Z) (l : list A) :
  (forall a, In a l -> f a = 0%Z) -> sum_Z (map f l) = 0%Z.
Proof.
  induction l as [|a l IH]; simpl; intros H; [reflexivity|].
  rewrite (H a (or_introl eq_refl)), IH; [reflexivity|]. intros b Hb. apply H. right; exact Hb.
Qed.

Lemma sum_Z_map_add {A : Type} (f g : A -> Z) (l : list A) :
  sum_Z (map (fun a => (f a + g a)%Z) l) = (sum_Z (map f l) + sum_Z (map g l))%Z.
Proof.
  unfold sum_Z. induction l as [|a l IH]; simpl; [reflexivity|].
  rewrite IH. lia.
Qed.

Lemma sum_Z_indicator (x : string) (ks : list string) :
  NoDup ks -> In x ks ->
  sum_Z (map (fun k => if string_dec x k then 1%Z else 0%Z) ks) = 1%Z.
Proof.
  induction 1 as [|k ks Hk Hnd IH]; intros Hx; [destruct Hx|].
  simpl. destruct (string_dec x k) as [->|Hne].
  - fold (sum_Z (map (fun k0 => if string_dec k k0 then 1%Z else 0%Z) ks)).
    rewrite sum_Z_zero; [reflexivity|].
    intros a Ha. destruct (string_dec k a) as [->|_]; [contradiction | reflexivity].
  - destruct Hx as [->|Hx]; [contradiction Hne; reflexivity|].
    apply IH, Hx.
Qed.

Lemma count_occ_total (ks l : list string) :
  NoDup ks -> (forall x, In x l -> In x ks) ->
  sum_Z (map (fun k => Z.of_nat (count_occ string_dec l k)) ks)
  = Z.of_nat (List.length l).
Proof.
  intros Hnd. induction l as [|x l IH]; intros Hin.
  - apply sum_Z_zero. reflexivity.
  - assert (Hx : In x ks) by (apply Hin; left; reflexivity).
    specialize (IH (fun y Hy => Hin y (or_intror Hy))).
    cbn [List.length]. rewrite Nat2Z.inj_succ, <- IH.
    rewrite (map_ext _ (fun k => ((if string_dec x k then 1 else 0)
                                  + Z.of_nat (count_occ string_dec l k))%Z)).
    + rewrite sum_Z_map_add, (sum_Z_indicator x ks Hnd Hx). lia.
    + intros k. simpl. destruct (string_dec x k); lia.
Qed.

Lemma count_occ_group (col : string) (df : list row) (b : string) :
  count_occ string_dec (text_values col df) b = List.length (group col b df).
Proof.
  unfold text_values, group.
  induction df as [|r df IH]; simpl; [reflexivity|].
  destruct (text_of (field col r)) as [s|]; [|exact IH].
  simpl. destruct (string_dec s b) as [->|Hne].
  - rewrite String.eqb_refl. simpl. rewrite IH. reflexivity.
  - apply String.eqb_neq in Hne. rewrite Hne. exact IH.
Qed.


Lemma value_counts_perm (col : string) (df : list row) :
  Permutation (value_counts col df)
    (map (fun k => (k, Z.of_nat (List.length (group col k df))))
         (distinct (text_values col df))).
Proof.
  unfold value_counts.
  eapply Permutation_trans; [apply sort_values_perm|].
  erewrite map_ext; [apply Permutation_refl|].
  intros k. simpl. rewrite count_occ_group. reflexivity.
Qed.

Lemma value_counts_total (col : string) (df : list row) :
  sum_Z (map snd (value_counts col df)) = Z.of_nat (List.length (text_values col df)).
Proof.
  unfold value_counts.
  rewrite (sum_Z_perm _ _ (Permutation_map snd (sort_values_perm _ _ _))).
  rewrite map_map. simpl.
  apply count_occ_total; [apply distinct_NoDup|].
  intros x Hx. apply distinct_In, Hx.
Qed.



(** *** The query text read back *)

Lemma append_assoc (a b c : string) : (a +++ b) +++ c = a +++ (b +++ c).
Proof. induction a as [|x a IH]; simpl; [reflexivity | rewrite IH; reflexivity]. Qed.

Lemma append_empty_r (a : string) : a +++ EmptyString = a.
Proof. induction a as [|x a IH]; simpl; [reflexivity | rewrite IH; reflexivity]. Qed.

Lemma append_length (a b : string) :
  String.length (a +++ b) = (String.length a + String.length b)%nat.
Proof. induction a as [|x a IH]; simpl; [reflexivity | rewrite IH; reflexivity]. Qed.

Lemma strip_prefix_append (p s : string) : strip_prefix p (p +++ s) = Some s.
Proof.
  induction p as [|a p IH]; simpl; [reflexivity|].
  rewrite Ascii.eqb_refl. exact IH.
Qed.

Lemma query_text_from (filters : dict) (acc : string) :
  fold_left
    (fun query kv =>
       if is_nil (snd kv) then query
       else query +++ in_clause (fst kv) (snd kv))
    filters acc
  = acc +++ clauses_text (retained filters).
Proof.
  revert acc. induction filters as [|[k vs] filters IH]; intros acc; simpl.
  - symmetry. apply append_empty_r.
  - destruct vs as [|v vs]; simpl; rewrite IH; [reflexivity|].
    rewrite append_assoc. reflexivity.
Qed.

Lemma lex_ident_stops (column rest : string) :
  ident_like column = true ->
  lex_ident (column +++ String " " rest) = (column, String " " rest).
Proof.
  induction column as [|c column IH]; simpl; intros H; [reflexivity|].
  apply andb_prop in H. destruct H as [Hc H].
  rewrite Hc, (IH H). reflexivity.
Qed.

Lemma lex_literal_plain (v rest : string) :
  quote_free v = true -> no_quote_ahead rest = true ->
  lex_literal (v +++ String quote_char rest) = Some (v, rest).
Proof.
  intros Hv Hrest. induction v as [|c v IH]; simpl.
  - destruct rest as [|c' rest]; [reflexivity|].
    simpl in Hrest. apply negb_true_iff in Hrest. rewrite Hrest. reflexivity.
  - simpl in Hv. apply andb_prop in Hv. destruct Hv as [Hc Hv].
    apply negb_true_iff in Hc. rewrite Hc, (IH Hv). reflexivity.
Qed.

Lemma placeholders_one (v : string) : placeholders [v] = quote_value v.
Proof. reflexivity. Qed.

Lemma placeholders_more (v v' : string) (values : list string) :
  placeholders (v :: v' :: values)
  = quote_value v +++ "," +++ placeholders (v' :: values).
Proof. reflexivity. Qed.

Lemma parse_literal_step (fuel : nat) (v rest : string) :
  quote_free v = true -> no_quote_ahead rest = true ->
  parse_literals (S fuel) (quote_value v +++ rest)
  = match rest with
    | String c s2 =>
        if Ascii.eqb c ","%char
        then q <-? parse_literals fuel s2 ;; Some (v :: fst q, snd q)
        else if Ascii.eqb c ")"%char then Some ([v], s2)
        else None
    | EmptyString => None
    end.
Proof.
  intros Hv Hrest. unfold quote_value.
  cbn [parse_literals]. cbn [String.append strip_prefix].
  rewrite Ascii.eqb_refl. cbn [obind].
  rewrite append_assoc. cbn [String.append].
  change (String "'" rest) with (String quote_char rest).
  rewrite (lex_literal_plain v rest Hv Hrest). reflexivity.
Qed.

Lemma parse_literals_plain (values : list string) (rest : string) (fuel : nat) :
  values <> [] ->
  Forall (fun v => quote_free v = true) values ->
  (List.length values <= fuel)%nat ->
  parse_literals fuel (placeholders values +++ String ")" rest) = Some (values, rest).
Proof.
  revert fuel. induction values as [|v values IH]; intros fuel Hne Hplain Hfuel;
    [congruence|].
  inversion Hplain as [|? ? Hv Hvs]; subst.
  destruct fuel as [|fuel]; [simpl in Hfuel; lia|].
  destruct values as [|v' values].
  - rewrite placeholders_one, parse_literal_step by (auto; reflexivity).
    reflexivity.
  - rewrite placeholders_more, !append_assoc.
    rewrite parse_literal_step by (auto; reflexivity).
    cbn [String.append Ascii.eqb Bool.eqb].
    rewrite IH; [reflexivity | discriminate | exact Hvs | simpl in *; lia].
Qed.

Lemma placeholders_length (values : list string) :
  (List.length values <= String.length (placeholders values))%nat.
Proof.
  induction values as [|v values IH]; [simpl; lia|].
  destruct values as [|v' values].
  - rewrite placeholders_one. unfold quote_value. simpl. lia.
  - rewrite placeholders_more. unfold quote_value.
    rewrite !append_length. simpl in *. lia.
Qed.

Lemma clauses_text_length (clauses : dict) :
  (List.length clauses <= String.length (clauses_text clauses))%nat.
Proof.
  induction clauses as [|[k vs] clauses IH]; simpl; [lia|].
  rewrite append_length. unfold in_clause. simpl. lia.
Qed.

Lemma parse_clauses_plain (clauses : dict) (fuel : nat) :
  Forall plain_clause clauses ->
  (List.length clauses < fuel)%nat ->
  parse_clauses fuel (clauses_text clauses) = Some clauses.
Proof.
  revert fuel. induction clauses as [|[k vs] clauses IH]; intros fuel Hplain Hfuel.
  - destruct fuel; [lia | reflexivity].
  - inversion Hplain as [|? ? [Hk [Hne Hvs]] Hrest]; subst. simpl in Hk, Hne, Hvs.
    destruct fuel as [|fuel]; [lia|].
    cbn [clauses_text fold_right fst snd]. fold (clauses_text clauses).
    unfold in_clause. rewrite !append_assoc.
    cbn [String.append parse_clauses].
    cbn [strip_prefix Ascii.eqb Bool.eqb obind].
    rewrite lex_ident_stops by exact Hk.
    cbn [strip_prefix Ascii.eqb Bool.eqb obind].
    rewrite parse_literals_plain;
      [| exact Hne | exact Hvs
       | rewrite append_length; pose proof (placeholders_length vs); lia].
    cbn [obind fst snd].
    rewrite IH; [reflexivity | exact Hrest | simpl in Hfuel; lia].
Qed.

Lemma read_select_plain (filters : dict) :
  Forall plain_clause (retained filters) ->
  read_select (query_text filters) = Some (retained filters).
Proof.
  intros Hplain. unfold read_select, query_text.
  rewrite query_text_from, strip_prefix_append. cbn [obind].
  apply parse_clauses_plain; [exact Hplain|].
  pose proof (clauses_text_length (retained filters)). lia.
Qed.

Lemma text_columns_ident (c : string) : In c text_columns -> ident_like c = true.
Proof.
  unfold text_columns. simpl.
  intros H. repeat (destruct H as [<-|H]; [reflexivity|]). destruct H.
Qed.

Lemma query_with_filters_plain (filters : dict) (t : table) :
  Forall (fun kv => In (fst kv) text_columns
                    /\ Forall (fun v => quote_free v = true) (snd kv)) filters ->
  query_with_filters filters t = Ok (filter (allowed (retained filters)) t).
Proof.
  intros Hok.
  assert (Hret : Forall (fun kv => In (fst kv) text_columns /\ plain_clause kv)
                        (retained filters)).
  { unfold retained. apply Forall_forall. intros kv Hkv.
    apply filter_In in Hkv. destruct Hkv as [Hkv Hne].
    rewrite Forall_forall in Hok. destruct (Hok kv Hkv) as [Hcol Hvals].
    split; [exact Hcol|]. split; [apply text_columns_ident, Hcol|].
    split; [|exact Hvals]. destruct (snd kv); [discriminate Hne | discriminate]. }
  unfold query_with_filters, execute.
  rewrite read_select_plain
    by (eapply Forall_impl; [|exact Hret]; intros kv [_ H]; exact H).
  assert (Hcols : forallb (fun c => existsb (String.eqb (fst c)) text_columns)
                          (retained filters) = true).
  { apply forallb_forall. intros kv Hkv. rewrite Forall_forall in Hret.
    destruct (Hret kv Hkv) as [Hcol _].
    apply existsb_exists. exists (fst kv). split; [exact Hcol | apply String.eqb_refl]. }
  rewrite Hcols. reflexivity.
Qed.

(** * The claims *)

(** ** Range by segment *)



(** C10.  A segment that has rows among the queried ones, none of them
    with a [range_km], still has its row in the result of the
    range-by-segment query, and the mean of that row is missing. *)
Theorem kpi_1_keeps_segment_without_range
    (filters : dict) (t : table) (df : list row) (s : string) :
  query_with_filters filters t = Ok df ->
  (exists r, In r df /\ text_of (field "segment" r) = Some s) ->
  (forall r, In r df -> text_of (field "segment" r) = Some s ->
             float_of (field "range_km" r) = None) ->
  exists res,
    calculate_kpi_1_range_by_segment filters t = Ok res
    /\ In (s, None) (rows res).
Proof.
  intros Hq Hseg Hnone. eexists. split; [apply (kpi_1_on _ _ _ Hq)|]. simpl.
  apply (Permutation_in _ (Permutation_sym (sort_values_perm _ _ _))).
  apply groupby_mean_In. split; [exact Hseg|].
  assert (Hvals : float_values "range_km" (group "segment" s df) = []).
  { destruct (float_values "range_km" (group "segment" s df)) as [|x l] eqn:Hv;
      [reflexivity|].
    assert (Hx : In x (float_values "range_km" (group "segment" s df)))
      by (rewrite Hv; left; reflexivity).
    apply omap_In in Hx. destruct Hx as [r [Hr Hx]].
    apply filter_In in Hr. destruct Hr as [Hr Hk].
    destruct (text_of (field "segment" r)) as [s'|] eqn:Hs'; [|discriminate].
    apply String.eqb_eq in Hk. subst s'.
    rewrite (Hnone r Hr Hs') in Hx. discriminate. }
  rewrite Hvals. reflexivity.
Qed.

Lemma kpi_1_keeps_segment_without_range_witness :
  query_with_filters [] rangeless_table = Ok rangeless_table
  /\ (exists r, In r rangeless_table
                /\ text_of (field "segment" r) = Some "F - Luxury")
  /\ exists res,
       calculate_kpi_1_range_by_segment [] rangeless_table = Ok res
       /\ In ("F - Luxury", None) (rows res).
Proof.
  assert (Hq : query_with_filters [] rangeless_table = Ok rangeless_table)
    by (vm_compute; reflexivity).
  assert (Hs : exists r, In r rangeless_table
                         /\ text_of (field "segment" r) = Some "F - Luxury").
  { exists (nth 1 rangeless_table []). split; [right; left|]; reflexivity. }
  split; [exact Hq|]. split; [exact Hs|].
  apply (kpi_1_keeps_segment_without_range [] rangeless_table rangeless_table
           "F - Luxury" Hq Hs).
  intros r [<-|[<-|[]]] Hseg; [discriminate Hseg | reflexivity].
Defined.

(** ** No matching row *)



(** ** Battery against efficiency *)

Lemma filter_map_swap {A B : Type} (f : A -> B) (p : B -> bool) (l : list A) :
  filter p (map f l) = map f (filter (fun a => p (f a)) l).
Proof.
  induction l as [|a l IH]; simpl; [reflexivity|].
  destruct (p (f a)); simpl; rewrite IH; reflexivity.
Qed.




(** ** Distribution by body type *)

Lemma kpi_4_on (filters : dict) (t : table) (df : list row) :
  query_with_filters filters t = Ok df ->
  df <> [] ->
  calculate_kpi_4_distribution_by_body_type filters t
  = Ok (mkFrame ["car_body_type"; "count"; "percentage"]
          (sort_values (fun s => Some (inject_Z (count s))) false
             (map (fun kc =>
                     mkShare (fst kc) (snd kc)
                       (round2 (inject_Z (snd kc)
                                / inject_Z (Z.of_nat (List.length (text_values "car_body_type" df)))
                                * 100)))
                  (value_counts "car_body_type" df)))).
Proof.
  intros Hq Hne. unfold calculate_kpi_4_distribution_by_body_type.
  rewrite Hq. simpl. destruct df as [|r df']; [congruence|].
  cbn [is_nil]. rewrite value_counts_total. reflexivity.
Qed.




(** ** The filter model *)

Lemma dict_set_fresh (k : string) (v : list string) (d : dict) :
  ~ In k (keys d) -> dict_set k v d = d ++ [(k, v)].
Proof.
  induction d as [|[k' v'] d IH]; simpl; intros Hk; [reflexivity|].
  destruct (String.eqb_spec k' k) as [->|_]; [tauto|].
  rewrite IH; [reflexivity | tauto].
Qed.

Lemma dict_get_key (k : string) (d : dict) (v : list string) :
  dict_get k d = Some v -> In k (keys d).
Proof.
  induction d as [|[k' v'] d IH]; simpl; [discriminate|].
  destruct (String.eqb_spec k' k) as [->|_]; auto.
Qed.

Lemma dict_get_filter (p : string * list string -> bool) (d : dict)
    (k : string) (v : list string) :
  NoDup (keys d) ->
  dict_get k (filter p d) = Some v <-> dict_get k d = Some v /\ p (k, v) = true.
Proof.
  induction d as [|[k' v'] d IH]; simpl; intros Hnd.
  - split; [discriminate | intros [H _]; discriminate].
  - inversion Hnd as [|? ? Hk' Hnd']; subst.
    specialize (IH Hnd').
    destruct (String.eqb_spec k' k) as [->|Hne].
    + destruct (p (k, v')) eqn:Hp; simpl.
      * rewrite String.eqb_refl. split.
        -- intros H. injection H as <-. auto.
        -- intros [H _]. exact H.
      * split.
        -- intros H. apply IH in H. destruct H as [H _].
           apply dict_get_key in H. contradiction.
        -- intros [H Hp']. injection H as <-. congruence.
    + destruct (p (k', v')); simpl; [|exact IH].
      destruct (String.eqb_spec k' k) as [->|_]; [contradiction | exact IH].
Qed.

Lemma apply_filters_from (selected acc : dict) :
  NoDup (keys selected) ->
  (forall k, In k (keys selected) -> ~ In k (keys acc)) ->
  fold_left
    (fun validated_filters kv =>
       if is_nil (snd kv) then validated_filters
       else dict_set (fst kv) (snd kv) validated_filters)
    selected acc
  = acc ++ filter (fun kv => negb (is_nil (snd kv))) selected.
Proof.
  revert acc. induction selected as [|[k vs] sel IH]; intros acc Hnd Hfresh; simpl.
  - symmetry. apply app_nil_r.
  - inversion Hnd as [|? ? Hk Hnd']; subst.
    destruct vs as [|v vs]; simpl.
    + apply IH; [exact Hnd'|]. intros k' Hk'. apply Hfresh. right. exact Hk'.
    + rewrite dict_set_fresh by (apply Hfresh; left; reflexivity).
      rewrite IH; [rewrite <- app_assoc; reflexivity | exact Hnd' |].
      intros k' Hk'. unfold keys. rewrite map_app, in_app_iff. simpl.
      intros [Hin|[<-|[]]]; [|contradiction].
      revert Hin. apply Hfresh. right. exact Hk'.
Qed.

(** C9.  For a selection (a dict, so each key once), [apply_filters]
    returns the entries of the selection whose list of values is not empty,
    each with the list it was given and in the order of the selection:
    looking a field up in the result finds a list exactly when the
    selection holds that list for the field and the list is not empty. *)
Theorem apply_filters_keeps_nonempty (selected_filters : dict) :
  NoDup (keys selected_filters) ->
  apply_filters selected_filters
  = filter (fun kv => negb (is_nil (snd kv))) selected_filters
  /\ forall k vs,
       dict_get k (apply_filters selected_filters) = Some vs
       <-> dict_get k selected_filters = Some vs /\ vs <> [].
Proof.
  intros Hnd.
  assert (Heq : apply_filters selected_filters
                = filter (fun kv => negb (is_nil (snd kv))) selected_filters).
  { unfold apply_filters. rewrite apply_filters_from; [reflexivity | exact Hnd |].
    intros k _ []. }
  split; [exact Heq|].
  intros k vs. rewrite Heq, dict_get_filter by exact Hnd. simpl.
  destruct vs; simpl; split; intros [H1 H2]; split;
    congruence || discriminate || auto.
Qed.

Lemma apply_filters_keeps_nonempty_witness :
  NoDup (keys [("brand", ["Tesla"]); ("segment", []); ("car_body_type", [])])
  /\ apply_filters [("brand", ["Tesla"]); ("segment", []); ("car_body_type", [])]
     = [("brand", ["Tesla"])].
Proof.
  assert (Hnd : NoDup (keys [("brand", ["Tesla"]); ("segment", []);
                             ("car_body_type", [])])).
  { simpl. repeat constructor; simpl; intuition discriminate. }
  split; [exact Hnd|].
  exact (proj1 (apply_filters_keeps_nonempty _ Hnd)).
Defined.

(** ** The filtered query *)

(** C2, at a value that contains quotes.  The table holds the brands [a],
    [b] and [a','b]; for the filter set that allows the third brand only,
    the text sent to the engine lists the two literals ['a'] and ['b'], the
    query returns the first two vehicles, and the vehicle whose brand is in
    the allowed set, the third, is not returned. *)
Theorem query_with_filters_quoted_value :
  query_text [("brand", [quoted_brand])]
  = "SELECT * FROM vehicle_data WHERE 1=1 AND brand IN ('a','b')"
  /\ map (field "brand") quoted_table = [DText "a"; DText "b"; DText quoted_brand]
  /\ query_with_filters [("brand", [quoted_brand])] quoted_table
     = Ok (firstn 2 quoted_table)
  /\ filter (allowed [("brand", [quoted_brand])]) quoted_table
     = skipn 2 quoted_table.
Proof. repeat split; vm_compute; reflexivity. Qed.

(** A value with a single quote gives a text that is no statement of the
    shape read here: the literal ends at the quote. *)
Remark query_text_lone_quote :
  query_text [("brand", ["O'Brien"])]
  = "SELECT * FROM vehicle_data WHERE 1=1 AND brand IN ('O'Brien')"
  /\ read_select (query_text [("brand", ["O'Brien"])]) = None.
Proof. split; vm_compute; reflexivity. Qed.

(** ** The store *)

Section LoadFacts.

Variable to_numeric_scalar : string -> option Q.
Variable number_of_varchar : string -> option Q.
Variable varchar_of_number : Q -> string.

Local Abbreviation to_num := (to_numeric to_numeric_scalar).
Local Abbreviation prep := (prepared to_numeric_scalar).
Local Abbreviation prep_row := (prepared_row to_numeric_scalar).
Local Abbreviation cast_cell := (cast number_of_varchar varchar_of_number).
Local Abbreviation cast_cells := (cast_row number_of_varchar varchar_of_number).
Local Abbreviation fits_type := (fits number_of_varchar varchar_of_number).
Local Abbreviation fits_row := (row_fits to_numeric_scalar number_of_varchar varchar_of_number).
Local Abbreviation coerce := (coerce_numeric to_numeric_scalar).
Local Abbreviation load := (load_csv to_numeric_scalar number_of_varchar varchar_of_number).
Local Abbreviation insert := (insert_select number_of_varchar varchar_of_number).
Local Abbreviation by_name :=
  (stored_by_name to_numeric_scalar number_of_varchar varchar_of_number).
Local Abbreviation reachable :=
  (reachable_by to_numeric_scalar number_of_varchar varchar_of_number).

Lemma to_numeric_idem (c : cell) : to_num (to_num c) = to_num c.
Proof.
  destruct c as [|s|x]; simpl; try reflexivity.
  destruct (to_numeric_scalar s); reflexivity.
Qed.

Lemma map_column_zip (name : string) (f : cell -> cell) (cols : list string) (r : list cell) :
  map_column name f cols r
  = zip_cells (fun c x => if String.eqb c name then f x else x) cols r.
Proof.
  revert r. induction cols as [|c cols IH]; intros [|x r]; simpl; try reflexivity.
  rewrite IH. reflexivity.
Qed.

Lemma zip_cells_ext (g h : string -> cell -> cell) (cols : list string) (r : list cell) :
  (forall c x, g c x = h c x) -> zip_cells g cols r = zip_cells h cols r.
Proof.
  intros E. revert r. induction cols as [|c cols IH]; intros [|x r]; simpl; try reflexivity.
  rewrite E, IH. reflexivity.
Qed.

Lemma zip_cells_compose (g h : string -> cell -> cell) (cols : list string) (r : list cell) :
  zip_cells h cols (zip_cells g cols r) = zip_cells (fun c x => h c (g c x)) cols r.
Proof.
  revert r. induction cols as [|c cols IH]; intros [|x r]; simpl; try reflexivity.
  rewrite IH. reflexivity.
Qed.

Lemma zip_cells_id (cols : list string) (r : list cell) :
  zip_cells (fun _ x => x) cols r = r.
Proof.
  revert r. induction cols as [|c cols IH]; intros [|x r]; simpl; try reflexivity.
  rewrite IH. reflexivity.
Qed.

(** The loop over a list of column names, cell by cell. *)
Lemma coerce_loop (names : list string) (df : DataFrame) :
  fold_left
    (fun d col =>
       if existsb (String.eqb col) (columns d)
       then assign_column col to_num d
       else d)
    names df
  = mkFrame (columns df)
      (map (zip_cells
              (fun c x => if existsb (String.eqb c) names then to_num x else x)
              (columns df))
           (rows df)).
Proof.
  revert df. induction names as [|col names IH]; intros [cols rs];
    cbn [fold_left columns rows].
  - f_equal. rewrite <- (map_id rs) at 1. apply map_ext. intros r.
    symmetry. apply zip_cells_id.
  - match goal with
    | |- fold_left _ names ?d = _ =>
        assert (Hstep : d = mkFrame cols
                  (map (zip_cells
                          (fun c x => if String.eqb c col then to_num x else x) cols)
                       rs))
    end.
    { destruct (existsb (String.eqb col) cols) eqn:Hin.
      - unfold assign_column. simpl. f_equal. apply map_ext. intros r.
        apply map_column_zip.
      - f_equal. rewrite <- (map_id rs) at 1. apply map_ext_in. intros r _.
        assert (Hno : forall c, In c cols -> String.eqb c col = false).
        { intros c Hc. destruct (String.eqb_spec c col) as [->|]; [|reflexivity].
          assert (existsb (String.eqb col) cols = true)
            by (apply existsb_exists; exists col; split;
                [exact Hc | apply String.eqb_refl]).
          congruence. }
        clear Hin. revert r. induction cols as [|c cols IHc]; intros [|x r]; simpl;
          try reflexivity.
        rewrite (Hno c (or_introl eq_refl)), <- IHc; [reflexivity|].
        intros c' Hc'. apply Hno. right. exact Hc'. }
    rewrite Hstep, IH. cbn [columns rows]. f_equal. rewrite map_map. apply map_ext. intros r.
    rewrite zip_cells_compose. apply zip_cells_ext. intros c x. cbn [existsb].
    destruct (String.eqb c col); simpl; [|reflexivity].
    destruct (existsb (String.eqb c) names); [apply to_numeric_idem | reflexivity].
Qed.

Lemma coerce_numeric_cells (df : DataFrame) :
  coerce df
  = mkFrame (columns df) (map (zip_cells prep (columns df)) (rows df)).
Proof. apply coerce_loop. Qed.

Lemma cell_at_cons (c : string) (cols : list string) (name : string)
    (x : cell) (r : list cell) :
  cell_at (c :: cols) name (x :: r)
  = if String.eqb c name then x else cell_at cols name r.
Proof.
  unfold cell_at. simpl. destruct (String.eqb c name); [reflexivity|].
  destruct (index_of name cols); reflexivity.
Qed.

Lemma cell_at_nil (cols : list string) (name : string) : cell_at cols name [] = NaN.
Proof.
  unfold cell_at. destruct (index_of name cols) as [[|i]|]; reflexivity.
Qed.

Lemma cell_at_zip (g : string -> cell -> cell) (cols : list string) (name : string)
    (r : list cell) :
  g name NaN = NaN ->
  cell_at cols name (zip_cells g cols r) = g name (cell_at cols name r).
Proof.
  intros Hg. revert r. induction cols as [|c cols IH]; intros r.
  - unfold cell_at. simpl. symmetry. exact Hg.
  - destruct r as [|x r]; [simpl; rewrite !cell_at_nil; symmetry; exact Hg|].
    cbn [zip_cells]. rewrite !cell_at_cons.
    destruct (String.eqb_spec c name) as [->|_]; [reflexivity | apply IH].
Qed.

Lemma prepared_NaN (name : string) : prep name NaN = NaN.
Proof. unfold prepared. destruct (existsb _ _); reflexivity. Qed.

Lemma all_present_prepared (cols : list string) (r : list cell) :
  all_present cols required_columns (zip_cells prep cols r)
  = all_present cols required_columns r.
Proof.
  unfold all_present, required_columns. cbn [forallb].
  rewrite !cell_at_zip by apply prepared_NaN. reflexivity.
Qed.


Lemma mapM_map {A B C : Type} (g : A -> B) (f : B -> result C) (l : list A) :
  mapM f (map g l) = mapM (fun a => f (g a)) l.
Proof.
  induction l as [|a l IH]; simpl; [reflexivity | rewrite IH; reflexivity].
Qed.

Lemma mapM_Forall2 {A B : Type} (f : A -> result B) (l : list A) (l' : list B) :
  mapM f l = Ok l' -> Forall2 (fun a b => f a = Ok b) l l'.
Proof.
  revert l'. induction l as [|a l IH]; simpl; intros l' H.
  - injection H as <-. constructor.
  - destruct (f a) as [b| |] eqn:Hb; try discriminate. simpl in H.
    destruct (mapM f l) as [bs| |]; try discriminate. simpl in H.
    injection H as <-. constructor; [exact Hb | apply IH; reflexivity].
Qed.

Lemma mapM_total {A B : Type} (f : A -> result B) (l : list A) :
  Forall (fun a => exists b, f a = Ok b) l ->
  exists l', mapM f l = Ok l' /\ List.length l' = List.length l.
Proof.
  induction 1 as [|a l [b Hb] _ [bs [Hbs Hlen]]]; simpl.
  - exists []. split; reflexivity.
  - exists (b :: bs). rewrite Hb, Hbs. simpl. rewrite Hlen. split; reflexivity.
Qed.

(** A load of a frame with the columns of the table: the complete rows,
    prepared and cast cell by cell, are appended. *)
Lemma load_csv_cells (df : DataFrame) (t : table) :
  has_table_columns df = true ->
  load df t
  = (new <- mapM (fun r => cast_cells (map snd schema) (prep_row (columns df) r))
                 (complete_rows df) ;;
     Ok (List.length (complete_rows df), t ++ new)).
Proof.
  unfold has_table_columns. rewrite andb_true_iff, Nat.eqb_eq.
  intros [Hlen Hnames].
  assert (Hreq : forallb (fun name => existsb (String.eqb name) (columns df))
                         required_columns = true).
  { rewrite forallb_forall in *. intros name Hname. apply Hnames.
    revert Hname. unfold required_columns, schema_columns. simpl.
    intros H. repeat (destruct H as [<-|H]; [tauto|]). destruct H. }
  unfold load_csv. rewrite coerce_numeric_cells.
  unfold dropna, complete_rows. cbn [columns rows]. rewrite Hreq.
  cbn [bind columns rows].
  rewrite filter_map_swap.
  rewrite (filter_ext _ _ (all_present_prepared (columns df))).
  set (complete := filter (all_present (columns df) required_columns) (rows df)).
  rewrite length_map.
  destruct complete as [|r complete'] eqn:Hc.
  - simpl. rewrite app_nil_r. reflexivity.
  - set (kept := r :: complete').
    change (0 <? List.length kept)%nat with true. cbn iota.
    unfold insert_select. cbn [columns rows]. rewrite Hlen.
    change (Nat.eqb (List.length schema_columns) (List.length schema)) with true.
    cbn iota. rewrite mapM_map.
    destruct (mapM _ kept); reflexivity.
Qed.

Lemma in_table_order_columns (df : DataFrame) :
  in_table_order df -> has_table_columns df = true.
Proof.
  unfold in_table_order, has_table_columns. intros ->. reflexivity.
Qed.

Lemma load_csv_in_table_order (df : DataFrame) (t : table) :
  in_table_order df ->
  load df t
  = (new <- mapM (fun r => cast_cells (map snd schema)
                             (zip_cells prep schema_columns r))
                 (complete_rows df) ;;
     Ok (List.length (complete_rows df), t ++ new)).
Proof.
  intros Horder. rewrite (load_csv_cells df t (in_table_order_columns df Horder)).
  unfold prepared_row. rewrite Horder. reflexivity.
Qed.

Lemma field_in_cons (c : string) (cols : list string) (name : string)
    (d : datum) (r : row) :
  field_in (c :: cols) name (d :: r)
  = if String.eqb c name then d else field_in cols name r.
Proof.
  unfold field_in. simpl. destruct (String.eqb c name); [reflexivity|].
  destruct (index_of name cols); reflexivity.
Qed.

Lemma cast_row_by_name (sch : list (string * sqltype)) (r : list cell) (stored : row) :
  NoDup (map fst sch) ->
  cast_cells (map snd sch) (zip_cells prep (map fst sch) r) = Ok stored ->
  forall name ty, In (name, ty) sch ->
    cast_cell ty (prep name (cell_at (map fst sch) name r))
    = Ok (field_in (map fst sch) name stored).
Proof.
  revert r stored. induction sch as [|[n0 ty0] sch IH]; intros r stored Hnd Hrow name ty Hin.
  - destruct Hin.
  - inversion Hnd as [|? ? Hn0 Hnd']; subst.
    destruct r as [|x r]; [discriminate Hrow|].
    cbn [map fst snd zip_cells cast_row] in Hrow |- *.
    destruct (cast_cell ty0 (prep n0 x)) as [d| |] eqn:Hd; try discriminate Hrow.
    cbn [bind] in Hrow.
    destruct (cast_cells (map snd sch) (zip_cells prep (map fst sch) r))
      as [ds| |] eqn:Hds; try discriminate Hrow.
    cbn [bind] in Hrow. injection Hrow as <-.
    rewrite cell_at_cons, field_in_cons.
    destruct Hin as [Heq|Hin].
    + injection Heq as <- <-. rewrite String.eqb_refl. exact Hd.
    + destruct (String.eqb_spec n0 name) as [->|_].
      * exfalso. apply Hn0. apply in_map_iff. exists (name, ty). split; [reflexivity | exact Hin].
      * apply (IH r ds Hnd' Hds name ty Hin).
Qed.

Lemma cast_row_fits (tys : list sqltype) (r : list cell) :
  Forall2 (fun ty c => fits_type ty c = true) tys r ->
  exists stored, cast_cells tys r = Ok stored.
Proof.
  induction 1 as [|ty c tys r Hc _ [ds Hds]].
  - exists []. reflexivity.
  - cbn [cast_row]. unfold fits in Hc.
    destruct (cast_cell ty c) as [d| |]; try discriminate Hc.
    rewrite Hds. exists (d :: ds). reflexivity.
Qed.

Lemma schema_columns_NoDup : NoDup schema_columns.
Proof.
  unfold schema_columns. simpl.
  repeat (constructor; [simpl; intuition discriminate|]). constructor.
Qed.

Lemma complete_row_stored (cols : list string) (r : list cell) (stored : row) :
  all_present cols required_columns r = true ->
  by_name cols r stored ->
  required_stored stored = true.
Proof.
  unfold all_present, required_columns, required_stored. cbn [forallb].
  rewrite !andb_true_iff, !negb_true_iff. intros [Hb [Hm [Hs [Hc _]]]] Hst.
  assert (Htext : forall name, In (name, VARCHAR) schema ->
                    existsb (String.eqb name) numeric_columns = false ->
                    isna (cell_at cols name r) = false ->
                    is_some (text_of (field name stored)) = true).
  { intros name Hin Hnum Hna. specialize (Hst name VARCHAR Hin).
    unfold prepared in Hst. rewrite Hnum in Hst.
    destruct (cell_at cols name r); [discriminate Hna | |];
      simpl in Hst; injection Hst as <-; reflexivity. }
  repeat split; apply Htext; try reflexivity; try assumption;
    simpl; repeat (try (left; reflexivity); right).
Qed.

(** C3, amended.  For a frame whose header consists of the names of the
    columns of the table, and whose complete rows (brand, model, segment
    and car_body_type all present) hold at every position a value that
    fits the type of the column of the table at that position, [load_csv]
    returns the number of complete rows, 0 included, and the record count
    afterwards is the count before plus that number. *)
Theorem load_csv_counts_complete_rows (df : DataFrame) (t : table) :
  has_table_columns df = true ->
  Forall (fits_row (columns df)) (complete_rows df) ->
  exists t',
    load df t = Ok (List.length (complete_rows df), t')
    /\ get_record_count t'
       = (get_record_count t + List.length (complete_rows df))%nat.
Proof.
  intros Hcols Hfit.
  rewrite (load_csv_cells df t Hcols).
  destruct (mapM_total
              (fun r => cast_cells (map snd schema) (prep_row (columns df) r))
              (complete_rows df)) as [new [Hnew Hlen]].
  { eapply Forall_impl; [|exact Hfit]. intros r Hr. apply cast_row_fits, Hr. }
  rewrite Hnew. cbn [bind]. exists (t ++ new). split; [reflexivity|].
  unfold get_record_count. rewrite length_app, Hlen. reflexivity.
Qed.

(** C4, amended.  When the header of the frame lists the columns of the
    table in the order of the table (and the complete rows hold values that
    fit the types of their columns, so that the load succeeds), the table
    gains one row per complete row of the frame, and every field of that
    row is the cast, to the type of the field, of the cell under the header
    of the field's name (read as a number first in the numeric columns). *)
Theorem load_csv_stores_by_name (df : DataFrame) (t : table) :
  in_table_order df ->
  Forall (fits_row (columns df)) (complete_rows df) ->
  exists new,
    load df t = Ok (List.length (complete_rows df), t ++ new)
    /\ Forall2 (by_name (columns df)) (complete_rows df) new.
Proof.
  intros Horder Hfit.
  rewrite (load_csv_cells df t (in_table_order_columns df Horder)).
  destruct (mapM_total
              (fun r => cast_cells (map snd schema) (prep_row (columns df) r))
              (complete_rows df)) as [new [Hnew _]].
  { eapply Forall_impl; [|exact Hfit]. intros r Hr. apply cast_row_fits, Hr. }
  rewrite Hnew. cbn [bind]. exists new. split; [reflexivity|].
  apply mapM_Forall2 in Hnew.
  eapply Forall2_impl; [|exact Hnew].
  intros r stored Hrow name ty Hin. unfold prepared_row in Hrow.
  rewrite Horder in Hrow |- *.
  apply (cast_row_by_name schema r stored schema_columns_NoDup Hrow name ty Hin).
Qed.

(** C6, amended.  In every table reached from the empty one by clears and
    by loads of frames whose header is in the order of the table, every row
    has a brand, a model, a segment and a car_body_type. *)
Theorem required_fields_stored (t : table) :
  reachable in_table_order t ->
  Forall (fun r => required_stored r = true) t.
Proof.
  induction 1 as [|df t n t' _ IH Horder Hload|t _ _].
  - constructor.
  - rewrite (load_csv_in_table_order df t Horder) in Hload.
    destruct (mapM _ (complete_rows df)) as [new| |] eqn:Hnew; try discriminate Hload.
    cbn [bind] in Hload. injection Hload as _ <-.
    apply Forall_app. split; [exact IH|].
    apply mapM_Forall2 in Hnew.
    assert (Hcomplete : Forall (fun r => all_present schema_columns required_columns r = true)
                               (complete_rows df)).
    { unfold complete_rows. rewrite Horder. apply Forall_forall. intros r Hr.
      apply filter_In in Hr. apply Hr. }
    induction Hnew as [|r stored rs new' Hrow _ IHnew]; [constructor|].
    inversion Hcomplete as [|? ? Hr Hrs]; subst.
    constructor; [|apply IHnew, Hrs].
    apply (complete_row_stored schema_columns r stored Hr).
    intros name ty Hin.
    apply (cast_row_by_name schema r stored schema_columns_NoDup Hrow name ty Hin).
  - constructor.
Qed.

End LoadFacts.

Lemma load_csv_counts_complete_rows_witness :
  has_table_columns sample_frame = true
  /\ Forall (row_fits no_number no_number number_text (columns sample_frame))
            (complete_rows sample_frame)
  /\ exists t',
       load_csv no_number no_number number_text sample_frame []
       = Ok (List.length (complete_rows sample_frame), t')
       /\ get_record_count t'
          = (get_record_count [] + List.length (complete_rows sample_frame))%nat.
Proof.
  assert (Hcols : has_table_columns sample_frame = true) by reflexivity.
  assert (Hfit : Forall (row_fits no_number no_number number_text
                           (columns sample_frame))
                        (complete_rows sample_frame)).
  { repeat (constructor; [repeat constructor|]). constructor. }
  split; [exact Hcols|]. split; [exact Hfit|].
  exact (load_csv_counts_complete_rows no_number no_number number_text
           sample_frame [] Hcols Hfit).
Defined.

(** C3, as stated, fails: a complete vehicle with a top speed of 100000
    does not fit DECIMAL(6,2); the insert raises and nothing is counted. *)
Lemma every_batch_is_counted_fails : ~ every_batch_is_counted.
Proof.
  intros H.
  destruct (H no_number no_number number_text overflow_frame []) as [t' [Hload _]].
  - reflexivity.
  - repeat constructor.
  - vm_compute in Hload. discriminate Hload.
Qed.

Lemma load_csv_stores_by_name_witness :
  in_table_order sample_frame
  /\ Forall (row_fits no_number no_number number_text (columns sample_frame))
            (complete_rows sample_frame)
  /\ exists new,
       load_csv no_number no_number number_text sample_frame []
       = Ok (List.length (complete_rows sample_frame), [] ++ new)
       /\ Forall2 (stored_by_name no_number no_number number_text
                     (columns sample_frame))
                  (complete_rows sample_frame) new.
Proof.
  assert (Horder : in_table_order sample_frame) by reflexivity.
  assert (Hfit : Forall (row_fits no_number no_number number_text
                           (columns sample_frame))
                        (complete_rows sample_frame)).
  { repeat (constructor; [repeat constructor|]). constructor. }
  split; [exact Horder|]. split; [exact Hfit|].
  exact (load_csv_stores_by_name no_number no_number number_text
           sample_frame [] Horder Hfit).
Defined.

(** C4, as stated, fails: with the columns model and brand exchanged in the
    file, the brand Tesla is stored as the model and the model as the
    brand. *)
Lemma header_order_insignificant_fails : ~ header_order_insignificant.
Proof.
  intros H.
  destruct (H no_number no_number number_text model_first_frame [] 1%nat
              model_first_table) as [new [Hnew Hst]].
  - vm_compute. reflexivity.
  - vm_compute. reflexivity.
  - change ([] ++ new) with new in Hnew. subst new.
    assert (Hrows : complete_rows model_first_frame = rows model_first_frame)
      by (vm_compute; reflexivity).
    rewrite Hrows in Hst.
    inversion Hst as [|r stored rs news Hrow _ Hr Hs]; subst.
    specialize (Hrow "brand" VARCHAR (or_introl eq_refl)).
    vm_compute in Hrow. discriminate Hrow.
Qed.

Lemma required_fields_stored_witness :
  reachable_by no_number no_number number_text in_table_order sample_table
  /\ Forall (fun r => required_stored r = true) sample_table.
Proof.
  assert (Hreach : reachable_by no_number no_number number_text in_table_order
                     sample_table).
  { apply (reach_load _ _ _ _ sample_frame [] 4%nat sample_table).
    - apply reach_start.
    - reflexivity.
    - vm_compute. reflexivity. }
  split; [exact Hreach|].
  exact (required_fields_stored no_number no_number number_text sample_table Hreach).
Defined.

(** C6, as stated, fails: from a file whose first column is source_url and
    whose last is brand, a vehicle with a brand and no URL is kept and
    stored with a NULL brand. *)
Lemma required_fields_always_stored_fails : ~ required_fields_always_stored.
Proof.
  intros H.
  assert (Hreach : reachable_by no_number no_number number_text
                     (fun df => has_table_columns df = true) url_first_table).
  { apply (reach_load _ _ _ _ url_first_frame [] 1%nat).
    - apply reach_start.
    - vm_compute. reflexivity.
    - vm_compute. reflexivity. }
  specialize (H _ _ _ _ Hreach).
  inversion H as [|r rs Hr _]; subst.
  vm_compute in Hr. discriminate Hr.
Qed.

(** * Further properties of the code *)

(** *** The order of strings *)

Lemma string_leb_total (a b : string) : String.leb a b = false -> String.leb b a = true.
Proof.
  intros H. destruct (String.leb_total a b) as [H'|H']; [congruence | exact H'].
Qed.

Lemma ascii_compare_refl (a : ascii) : Ascii.compare a a = Eq.
Proof. unfold Ascii.compare. apply N.compare_refl. Qed.

Lemma ascii_compare_lt_trans (a b c : ascii) :
  Ascii.compare a b = Lt -> Ascii.compare b c = Lt -> Ascii.compare a c = Lt.
Proof.
  unfold Ascii.compare. rewrite !N.compare_lt_iff. apply N.lt_trans.
Qed.

Lemma string_compare_lt_trans (a b c : string) :
  String.compare a b = Lt -> String.compare b c = Lt -> String.compare a c = Lt.
Proof.
  revert b c. induction a as [|x a IH]; intros [|y b] [|z c]; simpl; try congruence.
  destruct (Ascii.compare x y) eqn:Hxy; try discriminate.
  - apply Ascii.compare_eq_iff in Hxy. subst y.
    destruct (Ascii.compare x z); try congruence. apply IH.
  - intros _. destruct (Ascii.compare y z) eqn:Hyz; try discriminate.
    + apply Ascii.compare_eq_iff in Hyz. subst z. rewrite Hxy. reflexivity.
    + rewrite (ascii_compare_lt_trans _ _ _ Hxy Hyz). reflexivity.
Qed.

Lemma string_compare_refl (a : string) : String.compare a a = Eq.
Proof.
  induction a as [|x a IH]; simpl; [reflexivity|].
  rewrite ascii_compare_refl. exact IH.
Qed.

Lemma string_leb_trans (a b c : string) :
  String.leb a b = true -> String.leb b c = true -> String.leb a c = true.
Proof.
  unfold String.leb.
  destruct (String.compare a b) eqn:Hab; try discriminate;
    destruct (String.compare b c) eqn:Hbc; try discriminate; intros _ _.
  - apply String.compare_eq_iff in Hab, Hbc. subst. rewrite string_compare_refl. reflexivity.
  - apply String.compare_eq_iff in Hab. subst. rewrite Hbc. reflexivity.
  - apply String.compare_eq_iff in Hbc. subst. rewrite Hab. reflexivity.
  - rewrite (string_compare_lt_trans _ _ _ Hab Hbc). reflexivity.
Qed.

Lemma string_leb_ltb (a b : string) :
  String.leb a b = true -> a <> b -> String.ltb a b = true.
Proof.
  unfold String.leb, String.ltb.
  destruct (String.compare a b) eqn:Hab; try discriminate; intros _ Hne.
  - apply String.compare_eq_iff in Hab. contradiction.
  - reflexivity.
Qed.

(** Sorted and without repetition is strictly increasing. *)
Lemma sorted_distinct_increasing (l : list string) :
  StronglySorted (fun a b => String.leb a b = true) l -> NoDup l ->
  StronglySorted (fun a b => String.ltb a b = true) l.
Proof.
  induction 1 as [|x l Hl IH Hx]; intros Hnd; constructor.
  - apply IH. inversion Hnd; assumption.
  - inversion Hnd as [|? ? Hnotin _]; subst.
    rewrite Forall_forall in *. intros y Hy.
    apply string_leb_ltb; [apply Hx, Hy|]. intros ->. contradiction.
Qed.

Lemma get_distinct_values_text (column : string) (t : table) :
  In column text_columns ->
  get_distinct_values column t
  = Ok (isort String.leb (distinct (text_values column t))).
Proof.
  unfold text_columns. simpl. intros H.
  repeat (destruct H as [<-|H]; [reflexivity|]). destruct H.
Qed.

Lemma sorted_values_In (column : string) (t : table) (v : string) :
  In v (isort String.leb (distinct (text_values column t)))
  <-> exists r, In r t /\ text_of (field column r) = Some v.
Proof.
  split.
  - intros H. apply text_values_In, distinct_In.
    exact (Permutation_in _ (isort_perm _ _) H).
  - intros H. apply (Permutation_in _ (Permutation_sym (isort_perm _ _))).
    apply distinct_In, text_values_In, H.
Qed.

(** X5.  For a text column of the table, [get_distinct_values] returns the
    values that occur in the column, NULL left out: each once, in strictly
    increasing order.  On an empty table the list is empty. *)
Theorem get_distinct_values_sorted (column : string) (t : table) :
  In column text_columns ->
  exists values,
    get_distinct_values column t = Ok values
    /\ StronglySorted (fun a b => String.ltb a b = true) values
    /\ forall v, In v values <->
                 exists r, In r t /\ text_of (field column r) = Some v.
Proof.
  intros Hcol. eexists. split; [apply get_distinct_values_text, Hcol|].
  split; [|apply sorted_values_In].
  apply sorted_distinct_increasing.
  - apply isort_ordered; [apply string_leb_total | apply string_leb_trans].
  - eapply Permutation_NoDup; [apply Permutation_sym, isort_perm | apply distinct_NoDup].
Qed.

(** *** More on the filtered query *)

Lemma filter_all {A : Type} (p : A -> bool) (l : list A) :
  (forall a, In a l -> p a = true) -> filter p l = l.
Proof.
  induction l as [|a l IH]; simpl; intros H; [reflexivity|].
  rewrite (H a (or_introl eq_refl)), IH; [reflexivity|].
  intros b Hb. apply H. right. exact Hb.
Qed.

Lemma query_text_retained (filters : dict) :
  query_text filters = select_all +++ clauses_text (retained filters).
Proof. unfold query_text. apply query_text_from. Qed.

Lemma retained_idem (filters : dict) : retained (retained filters) = retained filters.
Proof.
  unfold retained. apply filter_all. intros kv Hkv. apply filter_In in Hkv. apply Hkv.
Qed.

Lemma retained_none (filters : dict) :
  (forall kv, In kv filters -> snd kv = []) -> retained filters = [].
Proof.
  induction filters as [|kv filters IH]; simpl; intros H; [reflexivity|].
  rewrite (H kv (or_introl eq_refl)). simpl. apply IH.
  intros kv' Hkv'. apply H. right. exact Hkv'.
Qed.

Lemma apply_filters_retained (filters : dict) :
  NoDup (keys filters) -> apply_filters filters = retained filters.
Proof.
  intros Hnd. unfold apply_filters. rewrite apply_filters_from; [reflexivity | exact Hnd |].
  intros k _ [].
Qed.

(** X1.  When every key of the filter set is a text column of the table
    and no value holds a quote, [query_with_filters] returns, in the order
    of the table, exactly the rows that have, for every entry with a
    non-empty list, a value of that list in the column of the entry. *)
Theorem query_returns_allowed_rows (filters : dict) (t : table) :
  Forall (fun kv => In (fst kv) text_columns
                    /\ Forall (fun v => quote_free v = true) (snd kv)) filters ->
  query_with_filters filters t = Ok (filter (allowed (retained filters)) t).
Proof. apply query_with_filters_plain. Qed.

Lemma query_returns_allowed_rows_witness :
  Forall (fun kv => In (fst kv) text_columns
                    /\ Forall (fun v => quote_free v = true) (snd kv))
         [("brand", ["Tesla"; "BMW"]); ("segment", [])]
  /\ query_with_filters [("brand", ["Tesla"; "BMW"]); ("segment", [])] sample_table
     = Ok (firstn 3 sample_table).
Proof.
  assert (H : Forall (fun kv => In (fst kv) text_columns
                                /\ Forall (fun v => quote_free v = true) (snd kv))
                     [("brand", ["Tesla"; "BMW"]); ("segment", [])]).
  { constructor; [|constructor; [|constructor]]; split;
      try (unfold text_columns; simpl; tauto); repeat constructor. }
  split; [exact H|].
  exact (query_returns_allowed_rows _ sample_table H).
Defined.

(** X2.  A filter set whose lists are all empty returns every stored row,
    whatever its keys are: an entry with an empty list never reaches the
    query text, even when its key names no column. *)
Theorem query_ignores_empty_lists (filters : dict) (t : table) :
  (forall kv, In kv filters -> snd kv = []) ->
  query_with_filters filters t = Ok t.
Proof.
  intros H. unfold query_with_filters.
  rewrite query_text_retained, (retained_none filters H). cbn [clauses_text fold_right].
  rewrite append_empty_r. unfold execute.
  change (read_select select_all) with (Some (@nil (string * list string))).
  cbn [forallb]. f_equal. apply filter_all. reflexivity.
Qed.

Lemma query_ignores_empty_lists_witness :
  (forall kv : string * list string,
      In kv [("no such column", []); ("brand", [])] -> snd kv = [])
  /\ query_with_filters [("no such column", []); ("brand", [])] sample_table
     = Ok sample_table.
Proof.
  assert (H : forall kv : string * list string,
             In kv [("no such column", []); ("brand", [])] -> snd kv = []).
  { intros kv [<-|[<-|[]]]; reflexivity. }
  split; [exact H|].
  exact (query_ignores_empty_lists _ sample_table H).
Defined.

(** X3.  [apply_filters] changes nothing for the query: the normalised
    filter set gives the same query text, hence the same outcome, as the
    selection it was made from. *)
Theorem query_after_apply_filters (filters : dict) (t : table) :
  NoDup (keys filters) ->
  query_text (apply_filters filters) = query_text filters
  /\ query_with_filters (apply_filters filters) t = query_with_filters filters t.
Proof.
  intros Hnd.
  assert (E : query_text (apply_filters filters) = query_text filters).
  { rewrite (apply_filters_retained filters Hnd), !query_text_retained, retained_idem.
    reflexivity. }
  split; [exact E|]. unfold query_with_filters. rewrite E. reflexivity.
Qed.

Lemma query_after_apply_filters_witness :
  NoDup (keys [("brand", ["Tesla"]); ("segment", [])])
  /\ query_text (apply_filters [("brand", ["Tesla"]); ("segment", [])])
     = query_text [("brand", ["Tesla"]); ("segment", [])]
  /\ query_with_filters (apply_filters [("brand", ["Tesla"]); ("segment", [])]) sample_table
     = query_with_filters [("brand", ["Tesla"]); ("segment", [])] sample_table.
Proof.
  assert (Hnd : NoDup (keys [("brand", ["Tesla"]); ("segment", [])])).
  { simpl. repeat constructor; simpl; intuition discriminate. }
  split; [exact Hnd|].
  exact (query_after_apply_filters _ sample_table Hnd).
Defined.



(** *** From the filter options to the query *)

(** X6.  A value that [get_distinct_values] offers for a text column and
    that holds no quote, taken as the only filter on that column, selects
    at least one row, and only rows with that value. *)
Theorem offered_value_selects_rows (column : string) (t : table)
    (values : list string) (v : string) :
  In column text_columns ->
  get_distinct_values column t = Ok values ->
  In v values ->
  quote_free v = true ->
  exists df,
    query_with_filters [(column, [v])] t = Ok df
    /\ df <> []
    /\ forall r, In r df -> text_of (field column r) = Some v.
Proof.
  intros Hcol Hvalues Hv Hplain.
  rewrite (get_distinct_values_text column t Hcol) in Hvalues. injection Hvalues as <-.
  apply sorted_values_In in Hv. destruct Hv as [r0 [Hr0 Hv0]].
  assert (Hok : Forall (fun kv => In (fst kv) text_columns
                                  /\ Forall (fun v => quote_free v = true) (snd kv))
                       [(column, [v])]).
  { constructor; [|constructor]. split; [exact Hcol|]. constructor; [exact Hplain|constructor]. }
  eexists. split; [apply (query_with_filters_plain _ t Hok)|].
  assert (Hin : forall r, In r (filter (allowed (retained [(column, [v])])) t)
                          <-> In r t /\ text_of (field column r) = Some v).
  { intros r. rewrite filter_In. unfold allowed. simpl.
    destruct (text_of (field column r)) as [s|]; simpl.
    - rewrite !orb_false_r, andb_true_r, String.eqb_eq.
      split; intros [H1 H2]; split; congruence.
    - split; intros [_ H]; discriminate. }
  split.
  - intros E. assert (H : In r0 []) by (rewrite <- E; apply Hin; auto). destruct H.
  - intros r Hr. apply Hin, Hr.
Qed.

Lemma offered_value_selects_rows_witness :
  In "brand" text_columns
  /\ get_distinct_values "brand" sample_table = Ok ["Audi"; "BMW"; "Tesla"]
  /\ In "BMW" ["Audi"; "BMW"; "Tesla"]
  /\ quote_free "BMW" = true
  /\ exists df,
       query_with_filters [("brand", ["BMW"])] sample_table = Ok df
       /\ df <> []
       /\ forall r, In r df -> text_of (field "brand" r) = Some "BMW".
Proof.
  assert (H1 : In "brand" text_columns) by (left; reflexivity).
  assert (H2 : get_distinct_values "brand" sample_table = Ok ["Audi"; "BMW"; "Tesla"])
    by (vm_compute; reflexivity).
  assert (H3 : In "BMW" ["Audi"; "BMW"; "Tesla"]) by (right; left; reflexivity).
  assert (H4 : quote_free "BMW" = true) by reflexivity.
  repeat (split; [assumption|]).
  exact (offered_value_selects_rows "brand" sample_table _ "BMW" H1 H2 H3 H4).
Defined.

(** X7.  [get_available_filters] succeeds on every table and returns the
    three keys brand, segment and car_body_type, in this order; the list
    under a key is strictly increasing and holds exactly the values stored
    in that column (so all three are empty on an empty table). *)
Theorem get_available_filters_spec (t : table) :
  exists options,
    get_available_filters t = Ok options
    /\ keys options = ["brand"; "segment"; "car_body_type"]
    /\ forall k values, dict_get k options = Some values ->
         StronglySorted (fun a b => String.ltb a b = true) values
         /\ forall v, In v values <->
                      exists r, In r t /\ text_of (field k r) = Some v.
Proof.
  unfold get_available_filters.
  rewrite !get_distinct_values_text by (unfold text_columns; simpl; tauto).
  cbn [bind]. eexists. split; [reflexivity|]. split; [reflexivity|].
  assert (Hs : forall column,
             StronglySorted (fun a b => String.ltb a b = true)
               (isort String.leb (distinct (text_values column t)))).
  { intros column. apply sorted_distinct_increasing.
    - apply isort_ordered; [apply string_leb_total | apply string_leb_trans].
    - eapply Permutation_NoDup; [apply Permutation_sym, isort_perm | apply distinct_NoDup]. }
  intros k values. cbn [dict_get].
  destruct (String.eqb_spec "brand" k) as [<-|_].
  { intros H. injection H as <-. split; [apply Hs | apply sorted_values_In]. }
  destruct (String.eqb_spec "segment" k) as [<-|_].
  { intros H. injection H as <-. split; [apply Hs | apply sorted_values_In]. }
  destruct (String.eqb_spec "car_body_type" k) as [<-|_].
  { intros H. injection H as <-. split; [apply Hs | apply sorted_values_In]. }
  discriminate.
Qed.

(** *** The filter summary *)

Lemma summary_parts_from (filters : dict) (acc : list string) :
  fold_left
    (fun summary_parts kv =>
       if is_nil (snd kv) then summary_parts
       else summary_parts ++ [fst kv +++ ": " +++ String.concat ", " (snd kv)])
    filters acc
  = acc ++ map summary_part (retained filters).
Proof.
  revert acc. induction filters as [|[k vs] filters IH]; intros acc; simpl.
  - symmetry. apply app_nil_r.
  - destruct vs as [|v vs]; simpl; rewrite IH; [reflexivity|].
    rewrite <- app_assoc. reflexivity.
Qed.

Lemma get_filter_summary_parts (filters : dict) :
  get_filter_summary filters
  = if is_nil (retained filters) then no_filter_applied
    else String.concat " | " (map summary_part (retained filters)).
Proof.
  unfold get_filter_summary. rewrite summary_parts_from. cbn [app].
  destruct filters as [|kv filters]; [reflexivity|]. cbn [is_nil].
  destruct (retained (kv :: filters)); reflexivity.
Qed.

Lemma has_char_append (c : ascii) (a b : string) :
  has_char c (a +++ b) = has_char c a || has_char c b.
Proof.
  induction a as [|x a IH]; simpl; [reflexivity|].
  rewrite IH. apply orb_assoc.
Qed.

Lemma summary_has_colon (parts : dict) :
  parts <> [] ->
  has_char ":"%char (String.concat " | " (map summary_part parts)) = true.
Proof.
  destruct parts as [|kv parts]; [congruence|]. intros _.
  assert (Hpart : has_char ":"%char (summary_part kv) = true).
  { unfold summary_part. rewrite has_char_append. simpl. apply orb_true_r. }
  cbn [map]. destruct (map summary_part parts) as [|p ps] eqn:E.
  - exact Hpart.
  - change (String.concat " | " (summary_part kv :: p :: ps))
      with (summary_part kv +++ " | " +++ String.concat " | " (p :: ps)).
    rewrite has_char_append, Hpart. reflexivity.
Qed.

(** X8.  [get_filter_summary] gives the same text for a selection and for
    the filter set that [apply_filters] makes of it. *)
Theorem summary_after_apply_filters (filters : dict) :
  NoDup (keys filters) ->
  get_filter_summary (apply_filters filters) = get_filter_summary filters.
Proof.
  intros Hnd. rewrite (apply_filters_retained filters Hnd).
  rewrite !get_filter_summary_parts, retained_idem. reflexivity.
Qed.

Lemma summary_after_apply_filters_witness :
  NoDup (keys [("brand", ["Tesla"; "BMW"]); ("segment", []); ("car_body_type", ["SUV"])])
  /\ get_filter_summary
       (apply_filters [("brand", ["Tesla"; "BMW"]); ("segment", []);
                       ("car_body_type", ["SUV"])])
     = get_filter_summary [("brand", ["Tesla"; "BMW"]); ("segment", []);
                           ("car_body_type", ["SUV"])].
Proof.
  assert (Hnd : NoDup (keys [("brand", ["Tesla"; "BMW"]); ("segment", []);
                             ("car_body_type", ["SUV"])])).
  { simpl. repeat constructor; simpl; intuition discriminate. }
  split; [exact Hnd|].
  exact (summary_after_apply_filters _ Hnd).
Defined.

(** X9.  [get_filter_summary] answers that no filter is applied exactly
    when no entry of the filter set has a value: an entry with a value
    always shows in the summary. *)
Theorem summary_none_iff (filters : dict) :
  get_filter_summary filters = no_filter_applied
  <-> forall kv, In kv filters -> snd kv = [].
Proof.
  rewrite get_filter_summary_parts. split.
  - intros H kv Hkv. destruct (snd kv) as [|v vs] eqn:Hv; [reflexivity|].
    assert (Hne : retained filters <> []).
    { intros E. assert (Hin : In kv (retained filters)).
      { apply filter_In. split; [exact Hkv|]. rewrite Hv. reflexivity. }
      rewrite E in Hin. destruct Hin. }
    destruct (retained filters) as [|p ps] eqn:E; [congruence|].
    cbn [is_nil] in H.
    pose proof (summary_has_colon (p :: ps) Hne) as Hc.
    rewrite H in Hc. vm_compute in Hc. discriminate Hc.
  - intros H. rewrite (retained_none filters H). reflexivity.
Qed.

(** *** The sidebar *)

(** X10.  Once data are loaded, the filter set that
    [render_filter_section] builds from the three selectors is the one
    [apply_filters] makes of the three selections, and the notice shows its
    summary; before any load the filter set is empty and a warning is
    shown. *)
Theorem render_filter_section_filters (t : table)
    (selected_brands selected_segments selected_body_types : list string) :
  let filters :=
    apply_filters [("brand", selected_brands); ("segment", selected_segments);
                   ("car_body_type", selected_body_types)] in
  render_filter_section true t selected_brands selected_segments selected_body_types
  = Ok (filters, ShowInfo ("📌 " +++ get_filter_summary filters))
  /\ render_filter_section false t selected_brands selected_segments selected_body_types
     = Ok ([], ShowWarning "⚠️ Chargez d'abord les données").
Proof.
  split; [|reflexivity].
  unfold render_filter_section, get_available_filters.
  rewrite !get_distinct_values_text by (unfold text_columns; simpl; tauto).
  cbn [bind].
  destruct selected_brands, selected_segments, selected_body_types; reflexivity.
Qed.

(** *** Acceleration by brand and its chart *)

Lemma sort_values_ascending {A : Type} (by_ : A -> option Q) (l : list A) :
  StronglySorted (ascending by_) (sort_values by_ true l).
Proof.
  unfold sort_values.
  set (present := filter (fun a => is_some (by_ a)) l).
  set (missing := filter (fun a => negb (is_some (by_ a))) l).
  assert (Hmiss : forall b, In b missing -> by_ b = None).
  { intros b Hb. apply filter_In in Hb. destruct Hb as [_ Hb].
    destruct (by_ b); [discriminate | reflexivity]. }
  apply StronglySorted_app.
  - eapply StronglySorted_weaken;
      [| apply isort_ordered; [apply key_leb_total | apply key_leb_trans]].
    intros a b _ _. simpl. unfold ascending, key_leb.
    destruct (by_ a), (by_ b); try easy. apply Qle_bool_iff.
  - induction missing as [|m ms IH]; constructor.
    + apply IH. intros b Hb. apply Hmiss. right. exact Hb.
    + apply Forall_forall. intros b Hb. unfold ascending.
      rewrite (Hmiss b (or_intror Hb)). destruct (by_ m); exact I.
  - intros a b _ Hb. unfold ascending. rewrite (Hmiss b Hb).
    destruct (by_ a); exact I.
Qed.

Lemma StronglySorted_app_cross {A : Type} (R : A -> A -> Prop) (l1 l2 : list A) :
  StronglySorted R (l1 ++ l2) ->
  forall a b, In a l1 -> In b l2 -> R a b.
Proof.
  induction l1 as [|x l1 IH]; simpl; intros H a b Ha Hb; [destruct Ha|].
  inversion H as [|? ? Hs Hx]; subst.
  destruct Ha as [<-|Ha].
  - rewrite Forall_forall in Hx. apply Hx, in_or_app. right. exact Hb.
  - apply (IH Hs a b Ha Hb).
Qed.



(** X12.  The chart of the accelerations is absent exactly when the
    acceleration-by-brand frame has no row; otherwise it draws the first 15
    rows of the frame at most, and every brand drawn comes, in increasing
    order of mean acceleration, before every brand left out. *)
Theorem kpi_2_chart_shows_fastest (filters : dict) (t : table) (df : list row) :
  query_with_filters filters t = Ok df ->
  exists res,
    calculate_kpi_2_acceleration_by_brand filters t = Ok res
    /\ match render_kpi_2_acceleration_by_brand res with
       | None => rows res = []
       | Some chart =>
           rows res <> []
           /\ rows (drawn chart) = firstn 15 (rows res)
           /\ (List.length (rows (drawn chart)) <= 15)%nat
           /\ forall a b, In a (rows (drawn chart)) -> In b (skipn 15 (rows res)) ->
                          ascending snd a b
       end.
Proof.
  intros Hq. eexists. split; [apply (kpi_2_on _ _ _ Hq)|].
  set (sorted := sort_values snd true (groupby_mean "brand" "acceleration_0_100_s" df)).
  unfold render_kpi_2_acceleration_by_brand, frame_empty. cbn [rows columns is_nil orb].
  rewrite orb_false_r.
  destruct sorted as [|x xs] eqn:E; cbn [is_nil]; [reflexivity|].
  cbn [drawn rows]. rewrite <- E.
  split; [rewrite E; discriminate|]. split; [reflexivity|].
  split; [apply firstn_le_length|].
  apply StronglySorted_app_cross. rewrite firstn_skipn.
  apply sort_values_ascending.
Qed.

Lemma kpi_2_chart_shows_fastest_witness :
  query_with_filters [] sample_table = Ok sample_table
  /\ exists res,
       calculate_kpi_2_acceleration_by_brand [] sample_table = Ok res
       /\ match render_kpi_2_acceleration_by_brand res with
          | None => rows res = []
          | Some chart =>
              rows res <> []
              /\ rows (drawn chart) = firstn 15 (rows res)
              /\ (List.length (rows (drawn chart)) <= 15)%nat
              /\ forall a b, In a (rows (drawn chart)) -> In b (skipn 15 (rows res)) ->
                             ascending snd a b
          end.
Proof.
  split; [vm_compute; reflexivity|].
  apply (kpi_2_chart_shows_fastest [] sample_table sample_table).
  vm_compute; reflexivity.
Defined.

(** *** Means *)








(** *** Counts and percentages *)

Lemma sum_Z_nonneg (l : list Z) :
  (forall x, In x l -> (0 <= x)%Z) -> (0 <= sum_Z l)%Z.
Proof.
  induction l as [|x l IH]; simpl; intros H; [lia|].
  assert (0 <= x)%Z by (apply H; left; reflexivity).
  assert (0 <= sum_Z l)%Z by (apply IH; intros y Hy; apply H; right; exact Hy).
  unfold sum_Z in *. lia.
Qed.

Lemma sum_Z_member (l : list Z) (c : Z) :
  (forall x, In x l -> (0 <= x)%Z) -> In c l -> (c <= sum_Z l)%Z.
Proof.
  induction l as [|x l IH]; intros Hpos Hc; [destruct Hc|].
  assert (H0 : (0 <= x)%Z) by (apply Hpos; left; reflexivity).
  assert (Hl : forall y, In y l -> (0 <= y)%Z) by (intros y Hy; apply Hpos; right; exact Hy).
  pose proof (sum_Z_nonneg l Hl) as Hs.
  destruct Hc as [<-|Hc]; simpl.
  - unfold sum_Z in *. lia.
  - specialize (IH Hl Hc). unfold sum_Z in *. lia.
Qed.

Lemma rint_between (x : Q) (lo hi : Z) :
  (inject_Z lo <= x <= inject_Z hi)%Q -> (lo <= rint x <= hi)%Z.
Proof.
  intros [Hlo Hhi]. pose proof (rint_close x) as [H1 H2].
  split.
  - assert (H : (inject_Z lo < inject_Z (rint x + 1))%Q).
    { rewrite inject_Z_plus. change (inject_Z 1) with 1%Q. lra. }
    rewrite <- Zlt_Qlt in H. lia.
  - assert (H : (inject_Z (rint x) < inject_Z (hi + 1))%Q).
    { rewrite inject_Z_plus. change (inject_Z 1) with 1%Q. lra. }
    rewrite <- Zlt_Qlt in H. lia.
Qed.

Lemma round2_percentage (c total : Z) :
  (0 <= c <= total)%Z -> (0 < total)%Z ->
  (0 <= round2 (inject_Z c / inject_Z total * 100) <= 100)%Q.
Proof.
  intros [Hc0 Hc] Htotal.
  assert (Ht : (0 < inject_Z total)%Q)
    by (change 0%Q with (inject_Z 0); rewrite <- Zlt_Qlt; exact Htotal).
  assert (Hc0' : (0 <= inject_Z c)%Q)
    by (change 0%Q with (inject_Z 0); rewrite <- Zle_Qle; exact Hc0).
  assert (Hc' : (inject_Z c <= inject_Z total)%Q) by (rewrite <- Zle_Qle; exact Hc).
  assert (Hx : (0 <= inject_Z c / inject_Z total <= 1)%Q).
  { split.
    - apply Qle_shift_div_l; [exact Ht | lra].
    - apply Qle_shift_div_r; [exact Ht | lra]. }
  set (x := (inject_Z c / inject_Z total)%Q) in *.
  assert (Hr : (0 <= rint (x * 100 * 100) <= 10000)%Z).
  { apply rint_between. change (inject_Z 0) with 0%Q.
    change (inject_Z 10000) with 10000%Q. lra. }
  unfold round2. destruct Hr as [Hr0 Hr1].
  rewrite Zle_Qle in Hr0, Hr1.
  change (inject_Z 0) with 0%Q in Hr0. change (inject_Z 10000) with 10000%Q in Hr1.
  set (n := inject_Z (rint (x * 100 * 100))) in *.
  assert (E : (n / 100 == n * (1 # 100))%Q) by (unfold Qdiv; reflexivity).
  rewrite E. lra.
Qed.

Lemma group_nonempty (col k : string) (df : list row) :
  In k (text_values col df) -> (1 <= List.length (group col k df))%nat.
Proof.
  intros H. apply text_values_In in H. destruct H as [r [Hr Hk]].
  assert (Hin : In r (group col k df)).
  { apply filter_In. split; [exact Hr|]. rewrite Hk. apply String.eqb_refl. }
  destruct (group col k df); [destruct Hin | simpl; lia].
Qed.

(** The frame of KPI 4 on the queried rows, empty or not. *)
Lemma kpi_4_rows (filters : dict) (t : table) (df : list row) :
  query_with_filters filters t = Ok df ->
  calculate_kpi_4_distribution_by_body_type filters t
  = Ok (mkFrame ["car_body_type"; "count"; "percentage"]
          (sort_values (fun s => Some (inject_Z (count s))) false
             (map (fun kc =>
                     mkShare (fst kc) (snd kc)
                       (round2 (inject_Z (snd kc)
                                / inject_Z (Z.of_nat (List.length (text_values "car_body_type" df)))
                                * 100)))
                  (value_counts "car_body_type" df)))).
Proof.
  intros Hq. destruct df as [|r df'].
  - unfold calculate_kpi_4_distribution_by_body_type. rewrite Hq. reflexivity.
  - apply (kpi_4_on _ _ _ Hq). discriminate.
Qed.

(** X14.  In the body-type distribution the counts add up to the number of
    filtered rows that have a body type, every reported count is at least
    1, and every percentage lies between 0 and 100. *)
Theorem kpi_4_counts_and_percentages (filters : dict) (t : table) (df : list row)
    (res : frame share) :
  query_with_filters filters t = Ok df ->
  calculate_kpi_4_distribution_by_body_type filters t = Ok res ->
  sum_Z (map count (rows res))
  = Z.of_nat (List.length (text_values "car_body_type" df))
  /\ forall s, In s (rows res) ->
       (1 <= count s)%Z /\ (0 <= percentage s <= 100)%Q.
Proof.
  intros Hq Hk. rewrite (kpi_4_rows _ _ _ Hq) in Hk. injection Hk as <-. cbn [rows].
  set (total := Z.of_nat (List.length (text_values "car_body_type" df))).
  set (mk := fun kc : string * Z =>
               mkShare (fst kc) (snd kc) (round2 (inject_Z (snd kc) / inject_Z total * 100))).
  set (vc := value_counts "car_body_type" df).
  set (by_count := fun s : share => Some (inject_Z (count s))).
  pose proof (sort_values_perm by_count false (map mk vc)) as Hperm.
  pose proof (value_counts_perm "car_body_type" df) as Hvc. fold vc in Hvc.
  assert (Hsum : sum_Z (map snd vc) = total) by apply value_counts_total.
  assert (Hcounts : forall kc, In kc vc -> (1 <= snd kc)%Z).
  { intros kc Hkc. apply (Permutation_in _ Hvc) in Hkc. apply in_map_iff in Hkc.
    destruct Hkc as [k [<- Hk]]. simpl.
    pose proof (group_nonempty _ _ _ (proj1 (distinct_In _ _) Hk)). lia. }
  split.
  - rewrite (sum_Z_perm _ _ (Permutation_map count Hperm)), map_map. exact Hsum.
  - intros s Hs. apply (Permutation_in _ Hperm) in Hs. apply in_map_iff in Hs.
    destruct Hs as [kc [<- Hkc]]. simpl.
    pose proof (Hcounts kc Hkc) as H1. split; [exact H1|].
    assert (Hle : (snd kc <= total)%Z).
    { rewrite <- Hsum. apply sum_Z_member.
      - intros x Hx. apply in_map_iff in Hx. destruct Hx as [kc' [<- Hkc']].
        pose proof (Hcounts kc' Hkc'). lia.
      - apply in_map. exact Hkc. }
    apply round2_percentage; lia.
Qed.

Lemma kpi_4_counts_and_percentages_witness :
  query_with_filters [] sample_table = Ok sample_table
  /\ exists res,
       calculate_kpi_4_distribution_by_body_type [] sample_table = Ok res
       /\ sum_Z (map count (rows res))
          = Z.of_nat (List.length (text_values "car_body_type" sample_table))
       /\ forall s, In s (rows res) ->
            (1 <= count s)%Z /\ (0 <= percentage s <= 100)%Q.
Proof.
  assert (Hq : query_with_filters [] sample_table = Ok sample_table)
    by (vm_compute; reflexivity).
  split; [exact Hq|].
  pose (res := match calculate_kpi_4_distribution_by_body_type [] sample_table with
              | Ok r => r
              | _ => mkFrame [] []
              end).
  assert (Hk : calculate_kpi_4_distribution_by_body_type [] sample_table = Ok res)
    by (vm_compute; reflexivity).
  exists res. split; [exact Hk|].
  exact (kpi_4_counts_and_percentages [] sample_table sample_table res Hq Hk).
Defined.

(** *** The scatter data *)



(** ** More on the store *)

Section StoreFacts.

Variable to_numeric_scalar : string -> option Q.
Variable number_of_varchar : string -> option Q.
Variable varchar_of_number : Q -> string.

Local Abbreviation prep_cells := (prepared_row to_numeric_scalar).
Local Abbreviation cast_value := (cast number_of_varchar varchar_of_number).
Local Abbreviation cast_values := (cast_row number_of_varchar varchar_of_number).
Local Abbreviation load_frame :=
  (load_csv to_numeric_scalar number_of_varchar varchar_of_number).
Local Abbreviation reached :=
  (reachable_by to_numeric_scalar number_of_varchar varchar_of_number).
Local Abbreviation run_all :=
  (run to_numeric_scalar number_of_varchar varchar_of_number).

(** Every outcome of a load. *)
Lemma load_csv_outcome (df : DataFrame) (t : table) :
  load_frame df t
  = if forallb (fun name => existsb (String.eqb name) (columns df)) required_columns
    then
      if is_nil (complete_rows df) then Ok (0%nat, t)
      else if Nat.eqb (List.length (columns df)) (List.length schema)
      then new <- mapM (fun r => cast_values (map snd schema) (prep_cells (columns df) r))
                       (complete_rows df) ;;
           Ok (List.length (complete_rows df), t ++ new)
      else Raise BinderError
    else Raise KeyError.
Proof.
  unfold load_csv. rewrite coerce_numeric_cells.
  unfold dropna, complete_rows. cbn [columns rows].
  destruct (forallb _ required_columns); [|reflexivity].
  cbn [bind columns rows].
  rewrite filter_map_swap.
  rewrite (filter_ext _ _ (all_present_prepared to_numeric_scalar (columns df))).
  set (complete := filter (all_present (columns df) required_columns) (rows df)).
  rewrite length_map.
  destruct complete as [|r complete'] eqn:Hc; [reflexivity|].
  set (kept := r :: complete').
  change (0 <? List.length kept)%nat with true. cbn iota.
  change (is_nil kept) with false. cbn iota.
  unfold insert_select. cbn [columns rows].
  destruct (Nat.eqb _ _); [|reflexivity].
  cbn [bind]. rewrite mapM_map. unfold prepared_row.
  destruct (mapM _ kept); reflexivity.
Qed.

Lemma mapM_length {A B : Type} (f : A -> result B) (l : list A) (l' : list B) :
  mapM f l = Ok l' -> List.length l' = List.length l.
Proof.
  intros H. apply mapM_Forall2 in H. symmetry. apply (Forall2_length H).
Qed.

Lemma load_csv_result (df : DataFrame) (t : table) (n : nat) (t' : table) :
  load_frame df t = Ok (n, t') ->
  n = List.length (complete_rows df)
  /\ exists new,
       t' = t ++ new
       /\ List.length new = n
       /\ forall t2, load_frame df t2 = Ok (n, t2 ++ new).
Proof.
  rewrite load_csv_outcome. intros H.
  destruct (forallb _ required_columns) eqn:Hreq; [|discriminate H].
  destruct (complete_rows df) as [|r rs] eqn:Hc.
  - cbn [is_nil] in H. injection H as <- <-. split; [reflexivity|].
    exists []. split; [symmetry; apply app_nil_r|]. split; [reflexivity|].
    intros t2. rewrite load_csv_outcome, Hreq, Hc. cbn [is_nil].
    rewrite app_nil_r. reflexivity.
  - cbn [is_nil] in H.
    destruct (Nat.eqb _ _) eqn:Hlen; [|discriminate H].
    destruct (mapM _ (r :: rs)) as [new| |] eqn:Hnew; try discriminate H.
    cbn [bind] in H. injection H as <- <-. split; [reflexivity|].
    exists new. split; [reflexivity|].
    split; [apply (mapM_length _ _ _ Hnew)|].
    intros t2. rewrite load_csv_outcome, Hreq, Hc. cbn [is_nil].
    rewrite Hlen, Hnew. reflexivity.
Qed.

(** X16.  When [load_csv] returns [n], [n] is the number of complete rows
    of the frame and the table afterwards is the table before followed by
    [n] new rows; the new rows do not depend on the table, so loading the
    same file again appends them again (no deduplication). *)
Theorem load_csv_appends (df : DataFrame) (t : table) (n : nat) (t' : table) :
  load_frame df t = Ok (n, t') ->
  n = List.length (complete_rows df)
  /\ exists new,
       t' = t ++ new
       /\ List.length new = n
       /\ forall t2, load_frame df t2 = Ok (n, t2 ++ new).
Proof. apply load_csv_result. Qed.

(** X17.  When the header lacks one of brand, model, segment and
    car_body_type, [load_csv] raises a key error, whatever the rows and the
    table. *)
Theorem load_csv_missing_column (df : DataFrame) (t : table) (name : string) :
  In name required_columns ->
  ~ In name (columns df) ->
  load_frame df t = Raise KeyError.
Proof.
  intros Hreq Hmiss. rewrite load_csv_outcome.
  destruct (forallb _ required_columns) eqn:Hall; [|reflexivity].
  exfalso. rewrite forallb_forall in Hall. specialize (Hall name Hreq).
  apply existsb_exists in Hall. destruct Hall as [c [Hc Heq]].
  apply String.eqb_eq in Heq. subst c. contradiction.
Qed.

(** X18.  When the header has the four required columns and no row is
    complete, [load_csv] returns 0 and leaves the table as it is: the
    insert is skipped, so neither the number of columns nor the other
    cells matter. *)
Theorem load_csv_nothing_to_insert (df : DataFrame) (t : table) :
  (forall name, In name required_columns -> In name (columns df)) ->
  complete_rows df = [] ->
  load_frame df t = Ok (0%nat, t).
Proof.
  intros Hreq Hnone. rewrite load_csv_outcome, Hnone.
  assert (Hall : forallb (fun name => existsb (String.eqb name) (columns df))
                         required_columns = true).
  { apply forallb_forall. intros name Hname. apply existsb_exists.
    exists name. split; [apply Hreq, Hname | apply String.eqb_refl]. }
  rewrite Hall. reflexivity.
Qed.

(** X19.  When the header has the four required columns, some row is
    complete and the number of columns is not that of the table, the
    insert is refused: [load_csv] raises a binder error. *)
Theorem load_csv_column_count (df : DataFrame) (t : table) :
  (forall name, In name required_columns -> In name (columns df)) ->
  complete_rows df <> [] ->
  List.length (columns df) <> List.length schema ->
  load_frame df t = Raise BinderError.
Proof.
  intros Hreq Hsome Hlen. rewrite load_csv_outcome.
  assert (Hall : forallb (fun name => existsb (String.eqb name) (columns df))
                         required_columns = true).
  { apply forallb_forall. intros name Hname. apply existsb_exists.
    exists name. split; [apply Hreq, Hname | apply String.eqb_refl]. }
  rewrite Hall. destruct (complete_rows df); [congruence|]. cbn [is_nil].
  apply Nat.eqb_neq in Hlen. rewrite Hlen. reflexivity.
Qed.

(** *** Types *)

Lemma cast_well_typed (ty : sqltype) (c : cell) (d : datum) :
  cast_value ty c = Ok d -> well_typed ty d = true.
Proof.
  assert (Hnum : forall x, cast_number varchar_of_number ty x = Ok d ->
                           well_typed ty d = true).
  { intros x. unfold cast_number. destruct ty as [| |w s].
    - intros H. injection H as <-. reflexivity.
    - destruct (_ && _)%bool eqn:Hr; [|discriminate].
      intros H. injection H as <-. exact Hr.
    - destruct (_ <? _)%Z eqn:Hr; [|discriminate].
      intros H. injection H as <-. simpl. rewrite Nat.eqb_refl. exact Hr. }
  destruct c as [|s|x]; simpl.
  - intros H. injection H as <-. reflexivity.
  - destruct ty; [intros H; injection H as <-; reflexivity | |];
      (destruct (number_of_varchar s); [apply Hnum | discriminate]).
  - apply Hnum.
Qed.

Lemma cast_row_typed (tys : list sqltype) (r : list cell) (stored : row) :
  cast_values tys r = Ok stored ->
  Forall2 (fun ty d => well_typed ty d = true) tys stored.
Proof.
  revert r stored. induction tys as [|ty tys IH]; intros [|c r] stored H; simpl in H;
    try discriminate H.
  - injection H as <-. constructor.
  - destruct (cast_value ty c) as [d| |] eqn:Hd; try discriminate H. cbn [bind] in H.
    destruct (cast_values tys r) as [ds| |] eqn:Hds; try discriminate H.
    cbn [bind] in H. injection H as <-.
    constructor; [apply (cast_well_typed _ _ _ Hd) | apply (IH _ _ Hds)].
Qed.

(** X20.  In every table reached from the empty one by loads of any frames
    and by clears, every row has one value per column of the table, and
    each value is NULL or of the type of its column: a text in a VARCHAR
    column, a 32-bit integer in an INTEGER column, a decimal of the
    declared scale and within the declared width in a DECIMAL column. *)
Theorem stored_rows_well_typed (t : table) :
  reached (fun _ => True) t ->
  Forall row_typed t.
Proof.
  induction 1 as [|df t n t' _ IH _ Hload|t _ _].
  - constructor.
  - rewrite load_csv_outcome in Hload.
    destruct (forallb _ required_columns); [|discriminate Hload].
    destruct (is_nil (complete_rows df)).
    { injection Hload as _ <-. exact IH. }
    destruct (Nat.eqb _ _); [|discriminate Hload].
    destruct (mapM _ (complete_rows df)) as [new| |] eqn:Hnew; try discriminate Hload.
    cbn [bind] in Hload. injection Hload as _ <-.
    apply Forall_app. split; [exact IH|].
    apply mapM_Forall2 in Hnew.
    induction Hnew as [|r stored rs new' Hrow _ IHnew]; constructor; [|exact IHnew].
    apply (cast_row_typed _ _ _ Hrow).
  - constructor.
Qed.

(** *** Sequences of loads and clears *)

(** X21.  After any sequence of loads and clears from the empty table,
    [get_record_count] is the sum of the numbers that the loads have
    returned since the last clear; loads that raised count for nothing. *)
Theorem record_count_after_run (commands : list command) :
  get_record_count (fst (run_all commands)) = snd (run_all commands).
Proof.
  unfold run.
  assert (H : forall st, get_record_count (fst st) = snd st ->
                         get_record_count
                           (fst (fold_left (run_command to_numeric_scalar
                                             number_of_varchar varchar_of_number)
                                           commands st))
                         = snd (fold_left (run_command to_numeric_scalar
                                             number_of_varchar varchar_of_number)
                                          commands st)).
  { induction commands as [|c commands IH]; intros st Hst; [exact Hst|].
    cbn [fold_left]. apply IH. destruct st as [t acc]. simpl in Hst.
    destruct c as [df|]; cbn [run_command fst snd]; [|reflexivity].
    destruct (load_frame df t) as [[n t']| |] eqn:Hload; try exact Hst.
    apply load_csv_result in Hload.
    destruct Hload as [_ [new [-> [Hlen _]]]].
    cbn [fst snd]. unfold get_record_count in *. rewrite length_app. lia. }
  apply H. reflexivity.
Qed.

End StoreFacts.

Section LoadInOrder.

Variable to_numeric_scalar : string -> option Q.
Variable number_of_varchar : string -> option Q.
Variable varchar_of_number : Q -> string.

Local Abbreviation prep_cell := (prepared to_numeric_scalar).
Local Abbreviation cast_one := (cast number_of_varchar varchar_of_number).
Local Abbreviation cast_all := (cast_row number_of_varchar varchar_of_number).
Local Abbreviation load_in :=
  (load_csv to_numeric_scalar number_of_varchar varchar_of_number).

Lemma numeric_in_schema (name : string) :
  In name numeric_columns ->
  existsb (String.eqb name) numeric_columns = true
  /\ exists ty, In (name, ty) schema.
Proof.
  intros H. split.
  - apply existsb_exists. exists name. split; [exact H | apply String.eqb_refl].
  - unfold numeric_columns in H. simpl in H.
    repeat (destruct H as [<-|H];
            [eexists; simpl; repeat (try (left; reflexivity); right)|]).
    destruct H.
Qed.

(** X22.  In a load of a frame in table order, a text that [pd.to_numeric]
    does not read as a number, in one of the numeric columns of a complete
    row, is stored as NULL; it does not make the load fail. *)
Theorem unreadable_number_is_null (df : DataFrame) (t : table) (n : nat) (t' : table) :
  in_table_order df ->
  load_in df t = Ok (n, t') ->
  exists new,
    t' = t ++ new
    /\ Forall2
         (fun r stored =>
            forall name s,
              In name numeric_columns ->
              cell_at (columns df) name r = Str s ->
              to_numeric_scalar s = None ->
              field name stored = DNull)
         (complete_rows df) new.
Proof.
  intros Horder Hload.
  rewrite (load_csv_in_table_order _ _ _ df t Horder) in Hload.
  destruct (mapM _ (complete_rows df)) as [new| |] eqn:Hnew; try discriminate Hload.
  cbn [bind] in Hload. injection Hload as _ <-.
  exists new. split; [reflexivity|].
  apply mapM_Forall2 in Hnew.
  eapply Forall2_impl; [|exact Hnew].
  intros r stored Hrow name s Hname Hcell Hs.
  destruct (numeric_in_schema name Hname) as [Hnum [ty Hty]].
  pose proof (cast_row_by_name _ _ _ schema r stored schema_columns_NoDup Hrow name ty Hty)
    as Hcast.
  rewrite Horder in Hcell. change (map fst schema) with schema_columns in Hcast.
  rewrite Hcell in Hcast. unfold prepared in Hcast. rewrite Hnum in Hcast.
  simpl in Hcast. rewrite Hs in Hcast. simpl in Hcast.
  injection Hcast as Hcast. symmetry. exact Hcast.
Qed.

Lemma mapM_raise {A B : Type} (f : A -> result B) (l : list A) (e : exn) :
  mapM f l = Raise e -> exists a, In a l /\ f a = Raise e.
Proof.
  induction l as [|a l IH]; simpl; [discriminate|].
  destruct (f a) as [b| |] eqn:Ha; simpl.
  - destruct (mapM f l) as [bs| |]; simpl; try discriminate.
    intros H. injection H as <-. destruct IH as [a' [Hin Ha']]; [reflexivity|].
    exists a'. auto.
  - intros H. injection H as <-. exists a. auto.
  - discriminate.
Qed.

Lemma cast_never_beyond (ty : sqltype) (c : cell) : cast_one ty c <> Beyond.
Proof.
  assert (Hnum : forall x, cast_number varchar_of_number ty x <> Beyond).
  { intros x. unfold cast_number. destruct ty; try discriminate.
    - destruct (_ && _)%bool; discriminate.
    - destruct (_ <? _)%Z; discriminate. }
  destruct c as [|s|x]; simpl; [discriminate | | apply Hnum].
  destruct ty; [discriminate | |]; (destruct (number_of_varchar s); [apply Hnum | discriminate]).
Qed.

Lemma cast_row_never_beyond (tys : list sqltype) (r : list cell) :
  cast_all tys r <> Beyond.
Proof.
  revert r. induction tys as [|ty tys IH]; intros [|c r]; simpl; try discriminate.
  pose proof (cast_never_beyond ty c). destruct (cast_one ty c); simpl; try congruence.
  specialize (IH r). destruct (cast_all tys r); simpl; congruence.
Qed.

Lemma mapM_never_beyond {A B : Type} (f : A -> result B) (l : list A) :
  (forall a, f a <> Beyond) -> mapM f l <> Beyond.
Proof.
  intros Hf. induction l as [|a l IH]; simpl; [discriminate|].
  pose proof (Hf a). destruct (f a); simpl; try congruence.
  destruct (mapM f l); simpl; congruence.
Qed.

Lemma cast_row_failure (sch : list (string * sqltype)) (r : list cell) (e : exn) :
  NoDup (map fst sch) ->
  List.length r = List.length sch ->
  cast_all (map snd sch) (zip_cells prep_cell (map fst sch) r) = Raise e ->
  exists name ty,
    In (name, ty) sch
    /\ cast_one ty (prep_cell name (cell_at (map fst sch) name r)) = Raise e.
Proof.
  revert r. induction sch as [|[n0 ty0] sch IH]; intros [|x r] Hnd Hlen H;
    simpl in Hlen; try discriminate.
  inversion Hnd as [|? ? Hn0 Hnd']; subst.
  cbn [map fst snd zip_cells cast_row] in H.
  destruct (cast_one ty0 (prep_cell n0 x)) as [d| |] eqn:Hd.
  - cbn [bind] in H.
    destruct (cast_all (map snd sch) (zip_cells prep_cell (map fst sch) r))
      as [ds| |] eqn:Hds; try discriminate H.
    cbn [bind] in H. injection H as <-.
    destruct (IH r Hnd' ltac:(lia) Hds) as [name [ty [Hin Hc]]].
    exists name, ty. split; [right; exact Hin|].
    cbn [map fst]. rewrite cell_at_cons.
    destruct (String.eqb_spec n0 name) as [->|_]; [|exact Hc].
    exfalso. apply Hn0. apply in_map_iff. exists (name, ty). auto.
  - cbn [bind] in H. injection H as <-. exists n0, ty0. split; [left; reflexivity|].
    cbn [map fst]. rewrite cell_at_cons, String.eqb_refl. exact Hd.
  - exfalso. apply (cast_never_beyond _ _ Hd).
Qed.

Lemma prepared_cast_failure (name : string) (ty : sqltype) (c : cell) (e : exn) :
  In (name, ty) schema ->
  cast_one ty (prep_cell name c) = Raise e ->
  e = ConversionError
  /\ exists x, prep_cell name c = Num x
               /\ cast_number varchar_of_number ty x = Raise ConversionError.
Proof.
  assert (Hnum : forall x, cast_number varchar_of_number ty x = Raise e ->
                           e = ConversionError).
  { intros x. unfold cast_number. destruct ty; try discriminate.
    - destruct (_ && _)%bool; [discriminate | congruence].
    - destruct (_ <? _)%Z; [discriminate | congruence]. }
  intros Hin. unfold prepared.
  assert (Hcase : ty = VARCHAR \/ existsb (String.eqb name) numeric_columns = true).
  { simpl in Hin.
    repeat (destruct Hin as [Hin|Hin];
            [injection Hin as <- <-; (left; reflexivity) || (right; reflexivity)|]).
    destruct Hin. }
  destruct Hcase as [->|Hnumeric].
  - destruct (existsb _ numeric_columns); destruct c as [|s|x]; simpl; try discriminate;
      destruct (to_numeric_scalar s); discriminate.
  - rewrite Hnumeric. destruct c as [|s|x]; simpl; try discriminate.
    + destruct (to_numeric_scalar s) as [x|]; simpl; [|discriminate].
      intros H. pose proof (Hnum x H). subst e. split; [reflexivity|]. exists x. auto.
    + intros H. pose proof (Hnum x H). subst e. split; [reflexivity|]. exists x. auto.
Qed.

(** X23.  A load of a rectangular frame in table order either succeeds or
    raises a conversion error, and it raises only when some complete row
    holds, in some column, a number that the type of the column cannot
    hold. *)
Theorem load_failure_is_overflow (df : DataFrame) (t : table) :
  in_table_order df ->
  Forall (fun r => List.length r = List.length schema) (rows df) ->
  (exists new, load_in df t = Ok (List.length (complete_rows df), t ++ new))
  \/ (load_in df t = Raise ConversionError
      /\ exists r name ty x,
           In r (complete_rows df)
           /\ In (name, ty) schema
           /\ prep_cell name (cell_at (columns df) name r) = Num x
           /\ cast_number varchar_of_number ty x = Raise ConversionError).
Proof.
  intros Horder Hshape.
  rewrite (load_csv_in_table_order _ _ _ df t Horder).
  destruct (mapM _ (complete_rows df)) as [new|e|] eqn:Hnew.
  - left. exists new. reflexivity.
  - right. apply mapM_raise in Hnew. destruct Hnew as [r [Hr Hfail]].
    assert (Hlen : List.length r = List.length schema).
    { unfold complete_rows in Hr. apply filter_In in Hr.
      rewrite Forall_forall in Hshape. apply Hshape, Hr. }
    destruct (cast_row_failure schema r e schema_columns_NoDup Hlen Hfail)
      as [name [ty [Hin Hcast]]].
    destruct (prepared_cast_failure name ty _ e Hin Hcast) as [-> [x [Hx Hover]]].
    split; [reflexivity|]. exists r, name, ty, x. rewrite Horder. auto.
  - exfalso. revert Hnew. apply mapM_never_beyond. intros r. apply cast_row_never_beyond.
Qed.

End LoadInOrder.

Lemma get_distinct_values_sorted_witness :
  In "segment" text_columns
  /\ exists values,
       get_distinct_values "segment" sample_table = Ok values
       /\ StronglySorted (fun a b => String.ltb a b = true) values
       /\ forall v, In v values <->
                    exists r, In r sample_table /\ text_of (field "segment" r) = Some v.
Proof.
  assert (H : In "segment" text_columns) by (unfold text_columns; simpl; tauto).
  split; [exact H|].
  exact (get_distinct_values_sorted "segment" sample_table H).
Defined.

Lemma load_csv_appends_witness :
  load_csv no_number no_number number_text sample_frame sample_table
  = Ok (4%nat, sample_table ++ sample_table)
  /\ 4%nat = List.length (complete_rows sample_frame)
  /\ exists new,
       sample_table ++ sample_table = sample_table ++ new
       /\ List.length new = 4%nat
       /\ forall t2, load_csv no_number no_number number_text sample_frame t2
                     = Ok (4%nat, t2 ++ new).
Proof.
  assert (H : load_csv no_number no_number number_text sample_frame sample_table
              = Ok (4%nat, sample_table ++ sample_table)) by (vm_compute; reflexivity).
  split; [exact H|].
  exact (load_csv_appends no_number no_number number_text sample_frame sample_table
           4%nat (sample_table ++ sample_table) H).
Defined.

Lemma load_csv_missing_column_witness :
  In "car_body_type" required_columns
  /\ ~ In "car_body_type" (columns headless_frame)
  /\ load_csv no_number no_number number_text headless_frame sample_table
     = Raise KeyError.
Proof.
  assert (H1 : In "car_body_type" required_columns) by (simpl; tauto).
  assert (H2 : ~ In "car_body_type" (columns headless_frame))
    by (simpl; intuition discriminate).
  split; [exact H1|]. split; [exact H2|].
  exact (load_csv_missing_column no_number no_number number_text headless_frame
           sample_table "car_body_type" H1 H2).
Defined.

Lemma load_csv_nothing_to_insert_witness :
  (forall name, In name required_columns -> In name (columns short_incomplete_frame))
  /\ complete_rows short_incomplete_frame = []
  /\ load_csv no_number no_number number_text short_incomplete_frame sample_table
     = Ok (0%nat, sample_table).
Proof.
  assert (H1 : forall name, In name required_columns ->
                            In name (columns short_incomplete_frame))
    by (intros name H; exact H).
  assert (H2 : complete_rows short_incomplete_frame = []) by reflexivity.
  split; [exact H1|]. split; [exact H2|].
  exact (load_csv_nothing_to_insert no_number no_number number_text
           short_incomplete_frame sample_table H1 H2).
Defined.

Lemma load_csv_column_count_witness :
  (forall name, In name required_columns -> In name (columns short_frame))
  /\ complete_rows short_frame <> []
  /\ List.length (columns short_frame) <> List.length schema
  /\ load_csv no_number no_number number_text short_frame sample_table
     = Raise BinderError.
Proof.
  assert (H1 : forall name, In name required_columns -> In name (columns short_frame))
    by (intros name H; exact H).
  assert (H2 : complete_rows short_frame <> []) by discriminate.
  assert (H3 : List.length (columns short_frame) <> List.length schema) by discriminate.
  split; [exact H1|]. split; [exact H2|]. split; [exact H3|].
  exact (load_csv_column_count no_number no_number number_text short_frame
           sample_table H1 H2 H3).
Defined.

Lemma stored_rows_well_typed_witness :
  reachable_by no_number no_number number_text (fun _ => True) url_first_table
  /\ Forall row_typed url_first_table.
Proof.
  assert (H : reachable_by no_number no_number number_text (fun _ => True)
                url_first_table).
  { apply (reach_load _ _ _ _ url_first_frame [] 1%nat).
    - apply reach_start.
    - exact I.
    - vm_compute. reflexivity. }
  split; [exact H|].
  exact (stored_rows_well_typed no_number no_number number_text url_first_table H).
Defined.

Lemma unreadable_number_is_null_witness :
  in_table_order unreadable_frame
  /\ load_csv no_number no_number number_text unreadable_frame []
     = Ok (1%nat, loaded unreadable_frame)
  /\ exists new,
       loaded unreadable_frame = [] ++ new
       /\ Forall2
            (fun r stored =>
               forall name s,
                 In name numeric_columns ->
                 cell_at (columns unreadable_frame) name r = Str s ->
                 no_number s = None ->
                 field name stored = DNull)
            (complete_rows unreadable_frame) new.
Proof.
  assert (H1 : in_table_order unreadable_frame) by reflexivity.
  assert (H2 : load_csv no_number no_number number_text unreadable_frame []
               = Ok (1%nat, loaded unreadable_frame)) by (vm_compute; reflexivity).
  split; [exact H1|]. split; [exact H2|].
  exact (unreadable_number_is_null no_number no_number number_text unreadable_frame
           [] 1%nat (loaded unreadable_frame) H1 H2).
Defined.

Lemma load_failure_is_overflow_witness :
  in_table_order overflow_frame
  /\ Forall (fun r => List.length r = List.length schema) (rows overflow_frame)
  /\ ((exists new, load_csv no_number no_number number_text overflow_frame []
                   = Ok (List.length (complete_rows overflow_frame), [] ++ new))
      \/ (load_csv no_number no_number number_text overflow_frame []
          = Raise ConversionError
          /\ exists r name ty x,
               In r (complete_rows overflow_frame)
               /\ In (name, ty) schema
               /\ prepared no_number name (cell_at (columns overflow_frame) name r) = Num x
               /\ cast_number number_text ty x = Raise ConversionError)).
Proof.
  assert (H1 : in_table_order overflow_frame) by reflexivity.
  assert (H2 : Forall (fun r => List.length r = List.length schema) (rows overflow_frame))
    by (repeat constructor).
  split; [exact H1|]. split; [exact H2|].
  exact (load_failure_is_overflow no_number no_number number_text overflow_frame []
           H1 H2).
Defined.

